(** * Script-Assist: the ship dashboard

    A shallow embedding of the two screens of the dashboard,
    [src/pages/dashboard/Table.tsx] (the list screen) and
    [src/pages/dashboard/detailPage.tsx] (the detail screen), and the
    properties of their filter / sort / paginate pipeline, of their sort
    and search handlers and of their fetch lifecycle.

    Conventions of the embedding:
    - a JavaScript number that the program uses as an integer (a year, an
      array length, a page index) is a [Z];
    - a JavaScript string of the list screen is the list of its UTF-16 code
      units ([JS.str]), and [toLowerCase] is the default case conversion of
      Unicode, over the tables of Unicode 14; the detail screen, which only
      tests a string for being empty and looks keys up, keeps [string];
    - an array that is only read is a [list]; where the program updates an
      array in place ([Array.prototype.sort]) the arrays live in a store
      ([Store], a [gmap] from references to contents);
    - a React state cell is a field of a state record, a call of its setter
      an [action], and a handler the list of actions it issues. *)

From Stdlib Require Import ZArith QArith Qround Ascii String List Bool Lia.
From Stdlib Require Import Permutation Sorted DecimalString.
From Stdlib Require OrderedTypeEx.
From stdpp Require Import gmap.
Import ListNotations.

Local Open Scope Z_scope.
Local Open Scope string_scope.
Local Open Scope list_scope.

(* ===================================================================== *)
(** ** The JavaScript primitives the two screens call *)
(* ===================================================================== *)

Module JS.

(** A JavaScript string: the list of its UTF-16 code units. *)
Definition str : Type := list Z.

(** The code units of a literal written with ASCII characters. *)
Definition utf16 (s : string) : str :=
  List.map (fun c => Z.of_nat (nat_of_ascii c)) (list_ascii_of_string s).

(** *** Unicode 14 data

    The three tables [String.prototype.toLowerCase] reads, from the Unicode
    Character Database: the lowercase mapping of a code point (an entry
    [(first, last, step, delta)] maps each code point [first + k * step] up
    to [last] to itself plus [delta]; U+0130 maps to two code points and
    U+03A3, the capital sigma, depends on its context), and the code points
    with the properties Cased and Case_Ignorable, as ranges. *)
Definition Lowercase_Mapping_table : list (Z * Z * Z * Z) :=
  [
    (0x41, 0x5A, 1, 32); (0xC0, 0xD6, 1, 32); (0xD8, 0xDE, 1, 32);
    (0x100, 0x12E, 2, 1); (0x132, 0x136, 2, 1); (0x139, 0x147, 2, 1);
    (0x14A, 0x176, 2, 1); (0x178, 0x178, 1, (-121)); (0x179, 0x17D, 2, 1);
    (0x181, 0x181, 1, 210); (0x182, 0x184, 2, 1); (0x186, 0x186, 1, 206);
    (0x187, 0x187, 1, 1); (0x189, 0x18A, 1, 205); (0x18B, 0x18B, 1, 1);
    (0x18E, 0x18E, 1, 79); (0x18F, 0x18F, 1, 202); (0x190, 0x190, 1, 203);
    (0x191, 0x191, 1, 1); (0x193, 0x193, 1, 205); (0x194, 0x194, 1, 207);
    (0x196, 0x196, 1, 211); (0x197, 0x197, 1, 209); (0x198, 0x198, 1, 1);
    (0x19C, 0x19C, 1, 211); (0x19D, 0x19D, 1, 213); (0x19F, 0x19F, 1, 214);
    (0x1A0, 0x1A4, 2, 1); (0x1A6, 0x1A6, 1, 218); (0x1A7, 0x1A7, 1, 1);
    (0x1A9, 0x1A9, 1, 218); (0x1AC, 0x1AC, 1, 1); (0x1AE, 0x1AE, 1, 218);
    (0x1AF, 0x1AF, 1, 1); (0x1B1, 0x1B2, 1, 217); (0x1B3, 0x1B5, 2, 1);
    (0x1B7, 0x1B7, 1, 219); (0x1B8, 0x1B8, 1, 1); (0x1BC, 0x1BC, 1, 1);
    (0x1C4, 0x1C4, 1, 2); (0x1C5, 0x1C5, 1, 1); (0x1C7, 0x1C7, 1, 2);
    (0x1C8, 0x1C8, 1, 1); (0x1CA, 0x1CA, 1, 2); (0x1CB, 0x1DB, 2, 1);
    (0x1DE, 0x1EE, 2, 1); (0x1F1, 0x1F1, 1, 2); (0x1F2, 0x1F4, 2, 1);
    (0x1F6, 0x1F6, 1, (-97)); (0x1F7, 0x1F7, 1, (-56)); (0x1F8, 0x21E, 2, 1);
    (0x220, 0x220, 1, (-130)); (0x222, 0x232, 2, 1); (0x23A, 0x23A, 1, 10795);
    (0x23B, 0x23B, 1, 1); (0x23D, 0x23D, 1, (-163)); (0x23E, 0x23E, 1, 10792);
    (0x241, 0x241, 1, 1); (0x243, 0x243, 1, (-195)); (0x244, 0x244, 1, 69);
    (0x245, 0x245, 1, 71); (0x246, 0x24E, 2, 1); (0x370, 0x372, 2, 1);
    (0x376, 0x376, 1, 1); (0x37F, 0x37F, 1, 116); (0x386, 0x386, 1, 38);
    (0x388, 0x38A, 1, 37); (0x38C, 0x38C, 1, 64); (0x38E, 0x38F, 1, 63);
    (0x391, 0x3A1, 1, 32); (0x3A4, 0x3AB, 1, 32); (0x3CF, 0x3CF, 1, 8);
    (0x3D8, 0x3EE, 2, 1); (0x3F4, 0x3F4, 1, (-60)); (0x3F7, 0x3F7, 1, 1);
    (0x3F9, 0x3F9, 1, (-7)); (0x3FA, 0x3FA, 1, 1); (0x3FD, 0x3FF, 1, (-130));
    (0x400, 0x40F, 1, 80); (0x410, 0x42F, 1, 32); (0x460, 0x480, 2, 1);
    (0x48A, 0x4BE, 2, 1); (0x4C0, 0x4C0, 1, 15); (0x4C1, 0x4CD, 2, 1);
    (0x4D0, 0x52E, 2, 1); (0x531, 0x556, 1, 48); (0x10A0, 0x10C5, 1, 7264);
    (0x10C7, 0x10C7, 1, 7264); (0x10CD, 0x10CD, 1, 7264); (0x13A0, 0x13EF, 1, 38864);
    (0x13F0, 0x13F5, 1, 8); (0x1C90, 0x1CBA, 1, (-3008)); (0x1CBD, 0x1CBF, 1, (-3008));
    (0x1E00, 0x1E94, 2, 1); (0x1E9E, 0x1E9E, 1, (-7615)); (0x1EA0, 0x1EFE, 2, 1);
    (0x1F08, 0x1F0F, 1, (-8)); (0x1F18, 0x1F1D, 1, (-8)); (0x1F28, 0x1F2F, 1, (-8));
    (0x1F38, 0x1F3F, 1, (-8)); (0x1F48, 0x1F4D, 1, (-8)); (0x1F59, 0x1F5F, 2, (-8));
    (0x1F68, 0x1F6F, 1, (-8)); (0x1F88, 0x1F8F, 1, (-8)); (0x1F98, 0x1F9F, 1, (-8));
    (0x1FA8, 0x1FAF, 1, (-8)); (0x1FB8, 0x1FB9, 1, (-8)); (0x1FBA, 0x1FBB, 1, (-74));
    (0x1FBC, 0x1FBC, 1, (-9)); (0x1FC8, 0x1FCB, 1, (-86)); (0x1FCC, 0x1FCC, 1, (-9));
    (0x1FD8, 0x1FD9, 1, (-8)); (0x1FDA, 0x1FDB, 1, (-100)); (0x1FE8, 0x1FE9, 1, (-8));
    (0x1FEA, 0x1FEB, 1, (-112)); (0x1FEC, 0x1FEC, 1, (-7)); (0x1FF8, 0x1FF9, 1, (-128));
    (0x1FFA, 0x1FFB, 1, (-126)); (0x1FFC, 0x1FFC, 1, (-9)); (0x2126, 0x2126, 1, (-7517));
    (0x212A, 0x212A, 1, (-8383)); (0x212B, 0x212B, 1, (-8262)); (0x2132, 0x2132, 1, 28);
    (0x2160, 0x216F, 1, 16); (0x2183, 0x2183, 1, 1); (0x24B6, 0x24CF, 1, 26);
    (0x2C00, 0x2C2F, 1, 48); (0x2C60, 0x2C60, 1, 1); (0x2C62, 0x2C62, 1, (-10743));
    (0x2C63, 0x2C63, 1, (-3814)); (0x2C64, 0x2C64, 1, (-10727)); (0x2C67, 0x2C6B, 2, 1);
    (0x2C6D, 0x2C6D, 1, (-10780)); (0x2C6E, 0x2C6E, 1, (-10749)); (0x2C6F, 0x2C6F, 1, (-10783));
    (0x2C70, 0x2C70, 1, (-10782)); (0x2C72, 0x2C72, 1, 1); (0x2C75, 0x2C75, 1, 1);
    (0x2C7E, 0x2C7F, 1, (-10815)); (0x2C80, 0x2CE2, 2, 1); (0x2CEB, 0x2CED, 2, 1);
    (0x2CF2, 0x2CF2, 1, 1); (0xA640, 0xA66C, 2, 1); (0xA680, 0xA69A, 2, 1);
    (0xA722, 0xA72E, 2, 1); (0xA732, 0xA76E, 2, 1); (0xA779, 0xA77B, 2, 1);
    (0xA77D, 0xA77D, 1, (-35332)); (0xA77E, 0xA786, 2, 1); (0xA78B, 0xA78B, 1, 1);
    (0xA78D, 0xA78D, 1, (-42280)); (0xA790, 0xA792, 2, 1); (0xA796, 0xA7A8, 2, 1);
    (0xA7AA, 0xA7AA, 1, (-42308)); (0xA7AB, 0xA7AB, 1, (-42319)); (0xA7AC, 0xA7AC, 1, (-42315));
    (0xA7AD, 0xA7AD, 1, (-42305)); (0xA7AE, 0xA7AE, 1, (-42308)); (0xA7B0, 0xA7B0, 1, (-42258));
    (0xA7B1, 0xA7B1, 1, (-42282)); (0xA7B2, 0xA7B2, 1, (-42261)); (0xA7B3, 0xA7B3, 1, 928);
    (0xA7B4, 0xA7C2, 2, 1); (0xA7C4, 0xA7C4, 1, (-48)); (0xA7C5, 0xA7C5, 1, (-42307));
    (0xA7C6, 0xA7C6, 1, (-35384)); (0xA7C7, 0xA7C9, 2, 1); (0xA7D0, 0xA7D0, 1, 1);
    (0xA7D6, 0xA7D8, 2, 1); (0xA7F5, 0xA7F5, 1, 1); (0xFF21, 0xFF3A, 1, 32);
    (0x10400, 0x10427, 1, 40); (0x104B0, 0x104D3, 1, 40); (0x10570, 0x10594, 2, 39);
    (0x10571, 0x1057A, 1, 39); (0x1057C, 0x1058A, 1, 39); (0x1058C, 0x10592, 1, 39);
    (0x10594, 0x10595, 1, 39); (0x10C80, 0x10CB2, 1, 64); (0x118A0, 0x118BF, 1, 32);
    (0x16E40, 0x16E5F, 1, 32); (0x1E900, 0x1E921, 1, 34) ].

Definition Cased_table : list (Z * Z) :=
  [
    (0x41, 0x5A); (0x61, 0x7A); (0xAA, 0xAA); (0xB5, 0xB5);
    (0xBA, 0xBA); (0xC0, 0xD6); (0xD8, 0xF6); (0xF8, 0x1BA);
    (0x1BC, 0x1BF); (0x1C4, 0x293); (0x295, 0x2B8); (0x2C0, 0x2C1);
    (0x2E0, 0x2E4); (0x345, 0x345); (0x370, 0x373); (0x376, 0x377);
    (0x37A, 0x37D); (0x37F, 0x37F); (0x386, 0x386); (0x388, 0x38A);
    (0x38C, 0x38C); (0x38E, 0x3A1); (0x3A3, 0x3F5); (0x3F7, 0x481);
    (0x48A, 0x52F); (0x531, 0x556); (0x560, 0x588); (0x10A0, 0x10C5);
    (0x10C7, 0x10C7); (0x10CD, 0x10CD); (0x10D0, 0x10FA); (0x10FD, 0x10FF);
    (0x13A0, 0x13F5); (0x13F8, 0x13FD); (0x1C80, 0x1C88); (0x1C90, 0x1CBA);
    (0x1CBD, 0x1CBF); (0x1D00, 0x1DBF); (0x1E00, 0x1F15); (0x1F18, 0x1F1D);
    (0x1F20, 0x1F45); (0x1F48, 0x1F4D); (0x1F50, 0x1F57); (0x1F59, 0x1F59);
    (0x1F5B, 0x1F5B); (0x1F5D, 0x1F5D); (0x1F5F, 0x1F7D); (0x1F80, 0x1FB4);
    (0x1FB6, 0x1FBC); (0x1FBE, 0x1FBE); (0x1FC2, 0x1FC4); (0x1FC6, 0x1FCC);
    (0x1FD0, 0x1FD3); (0x1FD6, 0x1FDB); (0x1FE0, 0x1FEC); (0x1FF2, 0x1FF4);
    (0x1FF6, 0x1FFC); (0x2071, 0x2071); (0x207F, 0x207F); (0x2090, 0x209C);
    (0x2102, 0x2102); (0x2107, 0x2107); (0x210A, 0x2113); (0x2115, 0x2115);
    (0x2119, 0x211D); (0x2124, 0x2124); (0x2126, 0x2126); (0x2128, 0x2128);
    (0x212A, 0x212D); (0x212F, 0x2134); (0x2139, 0x2139); (0x213C, 0x213F);
    (0x2145, 0x2149); (0x214E, 0x214E); (0x2160, 0x217F); (0x2183, 0x2184);
    (0x24B6, 0x24E9); (0x2C00, 0x2CE4); (0x2CEB, 0x2CEE); (0x2CF2, 0x2CF3);
    (0x2D00, 0x2D25); (0x2D27, 0x2D27); (0x2D2D, 0x2D2D); (0xA640, 0xA66D);
    (0xA680, 0xA69D); (0xA722, 0xA787); (0xA78B, 0xA78E); (0xA790, 0xA7CA);
    (0xA7D0, 0xA7D1); (0xA7D3, 0xA7D3); (0xA7D5, 0xA7D9); (0xA7F5, 0xA7F6);
    (0xA7F8, 0xA7FA); (0xAB30, 0xAB5A); (0xAB5C, 0xAB68); (0xAB70, 0xABBF);
    (0xFB00, 0xFB06); (0xFB13, 0xFB17); (0xFF21, 0xFF3A); (0xFF41, 0xFF5A);
    (0x10400, 0x1044F); (0x104B0, 0x104D3); (0x104D8, 0x104FB); (0x10570, 0x1057A);
    (0x1057C, 0x1058A); (0x1058C, 0x10592); (0x10594, 0x10595); (0x10597, 0x105A1);
    (0x105A3, 0x105B1); (0x105B3, 0x105B9); (0x105BB, 0x105BC); (0x10780, 0x10780);
    (0x10783, 0x10785); (0x10787, 0x107B0); (0x107B2, 0x107BA); (0x10C80, 0x10CB2);
    (0x10CC0, 0x10CF2); (0x118A0, 0x118DF); (0x16E40, 0x16E7F); (0x1D400, 0x1D454);
    (0x1D456, 0x1D49C); (0x1D49E, 0x1D49F); (0x1D4A2, 0x1D4A2); (0x1D4A5, 0x1D4A6);
    (0x1D4A9, 0x1D4AC); (0x1D4AE, 0x1D4B9); (0x1D4BB, 0x1D4BB); (0x1D4BD, 0x1D4C3);
    (0x1D4C5, 0x1D505); (0x1D507, 0x1D50A); (0x1D50D, 0x1D514); (0x1D516, 0x1D51C);
    (0x1D51E, 0x1D539); (0x1D53B, 0x1D53E); (0x1D540, 0x1D544); (0x1D546, 0x1D546);
    (0x1D54A, 0x1D550); (0x1D552, 0x1D6A5); (0x1D6A8, 0x1D6C0); (0x1D6C2, 0x1D6DA);
    (0x1D6DC, 0x1D6FA); (0x1D6FC, 0x1D714); (0x1D716, 0x1D734); (0x1D736, 0x1D74E);
    (0x1D750, 0x1D76E); (0x1D770, 0x1D788); (0x1D78A, 0x1D7A8); (0x1D7AA, 0x1D7C2);
    (0x1D7C4, 0x1D7CB); (0x1DF00, 0x1DF09); (0x1DF0B, 0x1DF1E); (0x1E900, 0x1E943);
    (0x1F130, 0x1F149); (0x1F150, 0x1F169); (0x1F170, 0x1F189) ].

Definition Case_Ignorable_table : list (Z * Z) :=
  [
    (0x27, 0x27); (0x2E, 0x2E); (0x3A, 0x3A); (0x5E, 0x5E);
    (0x60, 0x60); (0xA8, 0xA8); (0xAD, 0xAD); (0xAF, 0xAF);
    (0xB4, 0xB4); (0xB7, 0xB8); (0x2B0, 0x36F); (0x374, 0x375);
    (0x37A, 0x37A); (0x384, 0x385); (0x387, 0x387); (0x483, 0x489);
    (0x559, 0x559); (0x55F, 0x55F); (0x591, 0x5BD); (0x5BF, 0x5BF);
    (0x5C1, 0x5C2); (0x5C4, 0x5C5); (0x5C7, 0x5C7); (0x5F4, 0x5F4);
    (0x600, 0x605); (0x610, 0x61A); (0x61C, 0x61C); (0x640, 0x640);
    (0x64B, 0x65F); (0x670, 0x670); (0x6D6, 0x6DD); (0x6DF, 0x6E8);
    (0x6EA, 0x6ED); (0x70F, 0x70F); (0x711, 0x711); (0x730, 0x74A);
    (0x7A6, 0x7B0); (0x7EB, 0x7F5); (0x7FA, 0x7FA); (0x7FD, 0x7FD);
    (0x816, 0x82D); (0x859, 0x85B); (0x888, 0x888); (0x890, 0x891);
    (0x898, 0x89F); (0x8C9, 0x902); (0x93A, 0x93A); (0x93C, 0x93C);
    (0x941, 0x948); (0x94D, 0x94D); (0x951, 0x957); (0x962, 0x963);
    (0x971, 0x971); (0x981, 0x981); (0x9BC, 0x9BC); (0x9C1, 0x9C4);
    (0x9CD, 0x9CD); (0x9E2, 0x9E3); (0x9FE, 0x9FE); (0xA01, 0xA02);
    (0xA3C, 0xA3C); (0xA41, 0xA42); (0xA47, 0xA48); (0xA4B, 0xA4D);
    (0xA51, 0xA51); (0xA70, 0xA71); (0xA75, 0xA75); (0xA81, 0xA82);
    (0xABC, 0xABC); (0xAC1, 0xAC5); (0xAC7, 0xAC8); (0xACD, 0xACD);
    (0xAE2, 0xAE3); (0xAFA, 0xAFF); (0xB01, 0xB01); (0xB3C, 0xB3C);
    (0xB3F, 0xB3F); (0xB41, 0xB44); (0xB4D, 0xB4D); (0xB55, 0xB56);
    (0xB62, 0xB63); (0xB82, 0xB82); (0xBC0, 0xBC0); (0xBCD, 0xBCD);
    (0xC00, 0xC00); (0xC04, 0xC04); (0xC3C, 0xC3C); (0xC3E, 0xC40);
    (0xC46, 0xC48); (0xC4A, 0xC4D); (0xC55, 0xC56); (0xC62, 0xC63);
    (0xC81, 0xC81); (0xCBC, 0xCBC); (0xCBF, 0xCBF); (0xCC6, 0xCC6);
    (0xCCC, 0xCCD); (0xCE2, 0xCE3); (0xD00, 0xD01); (0xD3B, 0xD3C);
    (0xD41, 0xD44); (0xD4D, 0xD4D); (0xD62, 0xD63); (0xD81, 0xD81);
    (0xDCA, 0xDCA); (0xDD2, 0xDD4); (0xDD6, 0xDD6); (0xE31, 0xE31);
    (0xE34, 0xE3A); (0xE46, 0xE4E); (0xEB1, 0xEB1); (0xEB4, 0xEBC);
    (0xEC6, 0xEC6); (0xEC8, 0xECD); (0xF18, 0xF19); (0xF35, 0xF35);
    (0xF37, 0xF37); (0xF39, 0xF39); (0xF71, 0xF7E); (0xF80, 0xF84);
    (0xF86, 0xF87); (0xF8D, 0xF97); (0xF99, 0xFBC); (0xFC6, 0xFC6);
    (0x102D, 0x1030); (0x1032, 0x1037); (0x1039, 0x103A); (0x103D, 0x103E);
    (0x1058, 0x1059); (0x105E, 0x1060); (0x1071, 0x1074); (0x1082, 0x1082);
    (0x1085, 0x1086); (0x108D, 0x108D); (0x109D, 0x109D); (0x10FC, 0x10FC);
    (0x135D, 0x135F); (0x1712, 0x1714); (0x1732, 0x1733); (0x1752, 0x1753);
    (0x1772, 0x1773); (0x17B4, 0x17B5); (0x17B7, 0x17BD); (0x17C6, 0x17C6);
    (0x17C9, 0x17D3); (0x17D7, 0x17D7); (0x17DD, 0x17DD); (0x180B, 0x180F);
    (0x1843, 0x1843); (0x1885, 0x1886); (0x18A9, 0x18A9); (0x1920, 0x1922);
    (0x1927, 0x1928); (0x1932, 0x1932); (0x1939, 0x193B); (0x1A17, 0x1A18);
    (0x1A1B, 0x1A1B); (0x1A56, 0x1A56); (0x1A58, 0x1A5E); (0x1A60, 0x1A60);
    (0x1A62, 0x1A62); (0x1A65, 0x1A6C); (0x1A73, 0x1A7C); (0x1A7F, 0x1A7F);
    (0x1AA7, 0x1AA7); (0x1AB0, 0x1ACE); (0x1B00, 0x1B03); (0x1B34, 0x1B34);
    (0x1B36, 0x1B3A); (0x1B3C, 0x1B3C); (0x1B42, 0x1B42); (0x1B6B, 0x1B73);
    (0x1B80, 0x1B81); (0x1BA2, 0x1BA5); (0x1BA8, 0x1BA9); (0x1BAB, 0x1BAD);
    (0x1BE6, 0x1BE6); (0x1BE8, 0x1BE9); (0x1BED, 0x1BED); (0x1BEF, 0x1BF1);
    (0x1C2C, 0x1C33); (0x1C36, 0x1C37); (0x1C78, 0x1C7D); (0x1CD0, 0x1CD2);
    (0x1CD4, 0x1CE0); (0x1CE2, 0x1CE8); (0x1CED, 0x1CED); (0x1CF4, 0x1CF4);
    (0x1CF8, 0x1CF9); (0x1D2C, 0x1D6A); (0x1D78, 0x1D78); (0x1D9B, 0x1DFF);
    (0x1FBD, 0x1FBD); (0x1FBF, 0x1FC1); (0x1FCD, 0x1FCF); (0x1FDD, 0x1FDF);
    (0x1FED, 0x1FEF); (0x1FFD, 0x1FFE); (0x200B, 0x200F); (0x2018, 0x2019);
    (0x2024, 0x2024); (0x2027, 0x2027); (0x202A, 0x202E); (0x2060, 0x2064);
    (0x2066, 0x206F); (0x2071, 0x2071); (0x207F, 0x207F); (0x2090, 0x209C);
    (0x20D0, 0x20F0); (0x2C7C, 0x2C7D); (0x2CEF, 0x2CF1); (0x2D6F, 0x2D6F);
    (0x2D7F, 0x2D7F); (0x2DE0, 0x2DFF); (0x2E2F, 0x2E2F); (0x3005, 0x3005);
    (0x302A, 0x302D); (0x3031, 0x3035); (0x303B, 0x303B); (0x3099, 0x309E);
    (0x30FC, 0x30FE); (0xA015, 0xA015); (0xA4F8, 0xA4FD); (0xA60C, 0xA60C);
    (0xA66F, 0xA672); (0xA674, 0xA67D); (0xA67F, 0xA67F); (0xA69C, 0xA69F);
    (0xA6F0, 0xA6F1); (0xA700, 0xA721); (0xA770, 0xA770); (0xA788, 0xA78A);
    (0xA7F2, 0xA7F4); (0xA7F8, 0xA7F9); (0xA802, 0xA802); (0xA806, 0xA806);
    (0xA80B, 0xA80B); (0xA825, 0xA826); (0xA82C, 0xA82C); (0xA8C4, 0xA8C5);
    (0xA8E0, 0xA8F1); (0xA8FF, 0xA8FF); (0xA926, 0xA92D); (0xA947, 0xA951);
    (0xA980, 0xA982); (0xA9B3, 0xA9B3); (0xA9B6, 0xA9B9); (0xA9BC, 0xA9BD);
    (0xA9CF, 0xA9CF); (0xA9E5, 0xA9E6); (0xAA29, 0xAA2E); (0xAA31, 0xAA32);
    (0xAA35, 0xAA36); (0xAA43, 0xAA43); (0xAA4C, 0xAA4C); (0xAA70, 0xAA70);
    (0xAA7C, 0xAA7C); (0xAAB0, 0xAAB0); (0xAAB2, 0xAAB4); (0xAAB7, 0xAAB8);
    (0xAABE, 0xAABF); (0xAAC1, 0xAAC1); (0xAADD, 0xAADD); (0xAAEC, 0xAAED);
    (0xAAF3, 0xAAF4); (0xAAF6, 0xAAF6); (0xAB5B, 0xAB5F); (0xAB69, 0xAB6B);
    (0xABE5, 0xABE5); (0xABE8, 0xABE8); (0xABED, 0xABED); (0xFB1E, 0xFB1E);
    (0xFBB2, 0xFBC2); (0xFE00, 0xFE0F); (0xFE13, 0xFE13); (0xFE20, 0xFE2F);
    (0xFE52, 0xFE52); (0xFE55, 0xFE55); (0xFEFF, 0xFEFF); (0xFF07, 0xFF07);
    (0xFF0E, 0xFF0E); (0xFF1A, 0xFF1A); (0xFF3E, 0xFF3E); (0xFF40, 0xFF40);
    (0xFF70, 0xFF70); (0xFF9E, 0xFF9F); (0xFFE3, 0xFFE3); (0xFFF9, 0xFFFB);
    (0x101FD, 0x101FD); (0x102E0, 0x102E0); (0x10376, 0x1037A); (0x10780, 0x10785);
    (0x10787, 0x107B0); (0x107B2, 0x107BA); (0x10A01, 0x10A03); (0x10A05, 0x10A06);
    (0x10A0C, 0x10A0F); (0x10A38, 0x10A3A); (0x10A3F, 0x10A3F); (0x10AE5, 0x10AE6);
    (0x10D24, 0x10D27); (0x10EAB, 0x10EAC); (0x10F46, 0x10F50); (0x10F82, 0x10F85);
    (0x11001, 0x11001); (0x11038, 0x11046); (0x11070, 0x11070); (0x11073, 0x11074);
    (0x1107F, 0x11081); (0x110B3, 0x110B6); (0x110B9, 0x110BA); (0x110BD, 0x110BD);
    (0x110C2, 0x110C2); (0x110CD, 0x110CD); (0x11100, 0x11102); (0x11127, 0x1112B);
    (0x1112D, 0x11134); (0x11173, 0x11173); (0x11180, 0x11181); (0x111B6, 0x111BE);
    (0x111C9, 0x111CC); (0x111CF, 0x111CF); (0x1122F, 0x11231); (0x11234, 0x11234);
    (0x11236, 0x11237); (0x1123E, 0x1123E); (0x112DF, 0x112DF); (0x112E3, 0x112EA);
    (0x11300, 0x11301); (0x1133B, 0x1133C); (0x11340, 0x11340); (0x11366, 0x1136C);
    (0x11370, 0x11374); (0x11438, 0x1143F); (0x11442, 0x11444); (0x11446, 0x11446);
    (0x1145E, 0x1145E); (0x114B3, 0x114B8); (0x114BA, 0x114BA); (0x114BF, 0x114C0);
    (0x114C2, 0x114C3); (0x115B2, 0x115B5); (0x115BC, 0x115BD); (0x115BF, 0x115C0);
    (0x115DC, 0x115DD); (0x11633, 0x1163A); (0x1163D, 0x1163D); (0x1163F, 0x11640);
    (0x116AB, 0x116AB); (0x116AD, 0x116AD); (0x116B0, 0x116B5); (0x116B7, 0x116B7);
    (0x1171D, 0x1171F); (0x11722, 0x11725); (0x11727, 0x1172B); (0x1182F, 0x11837);
    (0x11839, 0x1183A); (0x1193B, 0x1193C); (0x1193E, 0x1193E); (0x11943, 0x11943);
    (0x119D4, 0x119D7); (0x119DA, 0x119DB); (0x119E0, 0x119E0); (0x11A01, 0x11A0A);
    (0x11A33, 0x11A38); (0x11A3B, 0x11A3E); (0x11A47, 0x11A47); (0x11A51, 0x11A56);
    (0x11A59, 0x11A5B); (0x11A8A, 0x11A96); (0x11A98, 0x11A99); (0x11C30, 0x11C36);
    (0x11C38, 0x11C3D); (0x11C3F, 0x11C3F); (0x11C92, 0x11CA7); (0x11CAA, 0x11CB0);
    (0x11CB2, 0x11CB3); (0x11CB5, 0x11CB6); (0x11D31, 0x11D36); (0x11D3A, 0x11D3A);
    (0x11D3C, 0x11D3D); (0x11D3F, 0x11D45); (0x11D47, 0x11D47); (0x11D90, 0x11D91);
    (0x11D95, 0x11D95); (0x11D97, 0x11D97); (0x11EF3, 0x11EF4); (0x13430, 0x13438);
    (0x16AF0, 0x16AF4); (0x16B30, 0x16B36); (0x16B40, 0x16B43); (0x16F4F, 0x16F4F);
    (0x16F8F, 0x16F9F); (0x16FE0, 0x16FE1); (0x16FE3, 0x16FE4); (0x1AFF0, 0x1AFF3);
    (0x1AFF5, 0x1AFFB); (0x1AFFD, 0x1AFFE); (0x1BC9D, 0x1BC9E); (0x1BCA0, 0x1BCA3);
    (0x1CF00, 0x1CF2D); (0x1CF30, 0x1CF46); (0x1D167, 0x1D169); (0x1D173, 0x1D182);
    (0x1D185, 0x1D18B); (0x1D1AA, 0x1D1AD); (0x1D242, 0x1D244); (0x1DA00, 0x1DA36);
    (0x1DA3B, 0x1DA6C); (0x1DA75, 0x1DA75); (0x1DA84, 0x1DA84); (0x1DA9B, 0x1DA9F);
    (0x1DAA1, 0x1DAAF); (0x1E000, 0x1E006); (0x1E008, 0x1E018); (0x1E01B, 0x1E021);
    (0x1E023, 0x1E024); (0x1E026, 0x1E02A); (0x1E130, 0x1E13D); (0x1E2AE, 0x1E2AE);
    (0x1E2EC, 0x1E2EF); (0x1E8D0, 0x1E8D6); (0x1E944, 0x1E94B); (0x1F3FB, 0x1F3FF);
    (0xE0001, 0xE0001); (0xE0020, 0xE007F); (0xE0100, 0xE01EF) ].

Definition in_ranges (t : list (Z * Z)) (c : Z) : bool :=
  existsb (fun r => (Z.leb (fst r) c && Z.leb c (snd r))%bool) t.

Definition Cased (c : Z) : bool := in_ranges Cased_table c.

Definition Case_Ignorable (c : Z) : bool := in_ranges Case_Ignorable_table c.

Definition Lowercase_Mapping (c : Z) : list Z :=
  if Z.eqb c 0x130 then [0x69; 0x307]
  else
    match List.find
            (fun e => let '(first, last, step, _) := e in
                      (Z.leb first c && Z.leb c last
                       && Z.eqb ((c - first) mod step) 0)%bool)
            Lowercase_Mapping_table with
    | Some (_, _, _, delta) => [c + delta]
    | None => [c]
    end.

(** *** Code units and code points *)

Definition is_high (u : Z) : bool := (Z.leb 0xD800 u && Z.leb u 0xDBFF)%bool.

Definition is_low (u : Z) : bool := (Z.leb 0xDC00 u && Z.leb u 0xDFFF)%bool.

(** [StringToCodePoints]: a high surrogate followed by a low one is one
    code point; any other code unit, a lone surrogate too, is its own. *)
Fixpoint code_points (s : str) : list Z :=
  match s with
  | [] => []
  | u :: rest =>
      match rest with
      | v :: rest' =>
          if (is_high u && is_low v)%bool
          then (0x10000 + (u - 0xD800) * 0x400 + (v - 0xDC00))
               :: code_points rest'
          else u :: code_points rest
      | [] => [u]
      end
  end.

(** [CodePointsToString]. *)
Definition units_of (c : Z) : list Z :=
  if Z.ltb c 0x10000 then [c]
  else [0xD800 + (c - 0x10000) / 0x400; 0xDC00 + (c - 0x10000) mod 0x400].

Definition code_units (l : list Z) : str := flat_map units_of l.

(** *** [String.prototype.toLowerCase]

    The default case conversion of Unicode.  A capital sigma becomes the
    final sigma when a cased letter stands before it and none after it,
    case-ignorable code points apart; the search skips the case-ignorable
    code points first and then wants a cased one. *)
Fixpoint cased_letter_next (l : list Z) : bool :=
  match l with
  | [] => false
  | c :: rest => if Case_Ignorable c then cased_letter_next rest else Cased c
  end.

(** [before] holds the code points before the sigma, the nearest first. *)
Definition Final_Sigma (before after : list Z) : bool :=
  (cased_letter_next before && negb (cased_letter_next after))%bool.

Fixpoint lower_points (before l : list Z) : list Z :=
  match l with
  | [] => []
  | c :: rest =>
      (if Z.eqb c 0x3A3
       then [if Final_Sigma before rest then 0x3C2 else 0x3C3]
       else Lowercase_Mapping c)
      ++ lower_points (c :: before) rest
  end.

Definition toLowerCase (s : str) : str :=
  code_units (lower_points [] (code_points s)).

(** [String.prototype.includes]: [sub] occurs in [s] at some position. *)
Fixpoint prefix (sub s : str) : bool :=
  match sub, s with
  | [], _ => true
  | _ :: _, [] => false
  | a :: sub', b :: s' => (Z.eqb a b && prefix sub' s')%bool
  end.

Fixpoint includes (s sub : str) : bool :=
  (prefix sub s
   || match s with
      | [] => false
      | _ :: s' => includes s' sub
      end)%bool.

(** Two strings with the same code units. *)
Fixpoint str_eqb (s t : str) : bool :=
  match s, t with
  | [], [] => true
  | a :: s', b :: t' => (Z.eqb a b && str_eqb s' t')%bool
  | _, _ => false
  end.

(** The order of two strings: by their first different code unit, a
    prefix before its extensions. *)
Fixpoint str_compare (s t : str) : comparison :=
  match s, t with
  | [], [] => Eq
  | [], _ :: _ => Lt
  | _ :: _, [] => Gt
  | a :: s', b :: t' =>
      match Z.compare a b with
      | Eq => str_compare s' t'
      | Lt => Lt
      | Gt => Gt
      end
  end.

Definition str_ltb (s t : str) : bool :=
  match str_compare s t with
  | Lt => true
  | _ => false
  end.

Definition str_leb (s t : str) : bool :=
  match str_compare s t with
  | Gt => false
  | _ => true
  end.

(** The values the comparator of the table meets: numbers and strings. *)
Inductive value : Type :=
| VNum (n : Z)
| VStr (s : str).

(** [===] on these values: same type and same contents. *)
Definition strict_eq (a b : value) : bool :=
  match a, b with
  | VNum x, VNum y => Z.eqb x y
  | VStr s, VStr t => str_eqb s t
  | _, _ => false
  end.

(** [ToNumber] of a string, for the strings made of decimal digits: the
    empty string is [0], a string holding any other character is [NaN]
    ([None]).  The table compares no other string with a number than the
    empty one. *)
Fixpoint digits_value (acc : Z) (s : str) : option Z :=
  match s with
  | [] => Some acc
  | n :: s' =>
      if (Z.leb 48 n && Z.leb n 57)%bool
      then digits_value (10 * acc + (n - 48)) s'
      else None
  end.

Definition ToNumber (v : value) : option Z :=
  match v with
  | VNum n => Some n
  | VStr s => digits_value 0 s
  end.

(** [a > b]: two strings are compared code unit by code unit, anything
    else after [ToNumber]; a comparison with [NaN] is false. *)
Definition gt (a b : value) : bool :=
  match a, b with
  | VStr s, VStr t => str_ltb t s
  | _, _ =>
      match ToNumber a, ToNumber b with
      | Some x, Some y => Z.gtb x y
      | _, _ => false
      end
  end.

(** [Array.prototype.slice (start, end)], with its clamping of both
    indices and its reading of a negative index from the end. *)
Definition slice {A : Type} (l : list A) (start end_ : Z) : list A :=
  let len := Z.of_nat (List.length l) in
  let k := if Z.ltb start 0 then Z.max (len + start) 0 else Z.min start len in
  let final := if Z.ltb end_ 0 then Z.max (len + end_) 0 else Z.min end_ len in
  firstn (Z.to_nat (final - k)) (skipn (Z.to_nat k) l).

(** [Math.ceil (n / d)] on two integers: the division is the exact
    quotient, of which the ceiling is taken. *)
Definition ceil_div (n d : Z) : Z :=
  Qceiling (Qdiv (inject_Z n) (inject_Z d)).

(** [Array.prototype.sort (comparefn)].  For a comparator that is
    consistent on the elements the language fixes the result: the elements
    in the ascending order of the comparator, those that compare as equal in
    the order of the input.  The stable insertion sort computes it.  For a
    comparator that is not consistent the language leaves the order to the
    engine: the insertion sort gives one order an engine may return, and an
    engine may return another. *)
Fixpoint sort_insert {A : Type} (comparefn : A -> A -> Z) (x : A)
    (l : list A) : list A :=
  match l with
  | [] => [x]
  | y :: l' =>
      if Z.gtb (comparefn x y) 0 then y :: sort_insert comparefn x l'
      else x :: y :: l'
  end.

Definition sort {A : Type} (comparefn : A -> A -> Z) (l : list A) : list A :=
  fold_right (sort_insert comparefn) [] l.

End JS.

(** A literal stands for its code units. *)
Coercion JS.utf16 : string >-> JS.str.

(* ===================================================================== *)
(** ** The list screen, [Table.tsx] *)
(* ===================================================================== *)

Module Table.

Record Mission : Type := { name : JS.str }.

Record Ship : Type := {
  ship_id : Z;
  ship_name : JS.str;
  ship_type : JS.str;
  roles : list JS.str;
  home_port : JS.str;
  year_built : option Z;
  active : bool;
  image : option JS.str;
  missions : list Mission
}.

Inductive SortableField : Type :=
| Key_ship_name
| Key_ship_type
| Key_year_built
| Key_missions.

Definition field_eqb (f g : SortableField) : bool :=
  match f, g with
  | Key_ship_name, Key_ship_name
  | Key_ship_type, Key_ship_type
  | Key_year_built, Key_year_built
  | Key_missions, Key_missions => true
  | _, _ => false
  end.

(** [field === sortBy], where [sortBy] is a field or [null]. *)
Definition is_field (field : SortableField) (s : option SortableField) : bool :=
  match s with
  | Some f => field_eqb field f
  | None => false
  end.

Definition pageSize : Z := 10.

(** The component's state cells, in the order of their [useState]. *)
Record State : Type := {
  ships : list Ship;
  loading : bool;
  search : JS.str;
  sortBy : option SortableField;
  reverseSort : bool;
  selectedShip : option Ship;
  drawerOpened : bool;
  currentPage : Z
}.

Definition initial : State :=
  {| ships := []; loading := true; search := ""; sortBy := None;
     reverseSort := false; selectedShip := None; drawerOpened := false;
     currentPage := 1 |}.

(** What a handler or an effect does: calls of the state setters, and
    lines on the console. *)
Inductive action : Type :=
| SetShips (data : list Ship)
| SetLoading (b : bool)
| SetSearch (s : JS.str)
| SetSortBy (f : option SortableField)
| SetReverseSort (b : bool)
| SetSelectedShip (s : option Ship)
| SetDrawerOpened (b : bool)
| SetCurrentPage (p : Z)
| ConsoleError (msg : string).

Definition is_setter (a : action) : bool :=
  match a with
  | ConsoleError _ => false
  | _ => true
  end.

(** The setter's contract: the cell takes the new value. *)
Definition apply (a : action) (st : State) : State :=
  match a with
  | SetShips d =>
      {| ships := d; loading := loading st; search := search st;
         sortBy := sortBy st; reverseSort := reverseSort st;
         selectedShip := selectedShip st; drawerOpened := drawerOpened st;
         currentPage := currentPage st |}
  | SetLoading b =>
      {| ships := ships st; loading := b; search := search st;
         sortBy := sortBy st; reverseSort := reverseSort st;
         selectedShip := selectedShip st; drawerOpened := drawerOpened st;
         currentPage := currentPage st |}
  | SetSearch s =>
      {| ships := ships st; loading := loading st; search := s;
         sortBy := sortBy st; reverseSort := reverseSort st;
         selectedShip := selectedShip st; drawerOpened := drawerOpened st;
         currentPage := currentPage st |}
  | SetSortBy f =>
      {| ships := ships st; loading := loading st; search := search st;
         sortBy := f; reverseSort := reverseSort st;
         selectedShip := selectedShip st; drawerOpened := drawerOpened st;
         currentPage := currentPage st |}
  | SetReverseSort b =>
      {| ships := ships st; loading := loading st; search := search st;
         sortBy := sortBy st; reverseSort := b;
         selectedShip := selectedShip st; drawerOpened := drawerOpened st;
         currentPage := currentPage st |}
  | SetSelectedShip s =>
      {| ships := ships st; loading := loading st; search := search st;
         sortBy := sortBy st; reverseSort := reverseSort st;
         selectedShip := s; drawerOpened := drawerOpened st;
         currentPage := currentPage st |}
  | SetDrawerOpened b =>
      {| ships := ships st; loading := loading st; search := search st;
         sortBy := sortBy st; reverseSort := reverseSort st;
         selectedShip := selectedShip st; drawerOpened := b;
         currentPage := currentPage st |}
  | SetCurrentPage p =>
      {| ships := ships st; loading := loading st; search := search st;
         sortBy := sortBy st; reverseSort := reverseSort st;
         selectedShip := selectedShip st; drawerOpened := drawerOpened st;
         currentPage := p |}
  | ConsoleError _ => st
  end.

(** The state after a batch of actions, the first one applied first. *)
Definition run (acts : list action) (st : State) : State :=
  fold_left (fun s a => apply a s) acts st.

Definition console (acts : list action) : list string :=
  flat_map (fun a => match a with ConsoleError m => [m] | _ => [] end) acts.

(** [setSorting (field)], lines 92-96: reads [sortBy] and [reverseSort] of
    the render it was created in. *)
Definition setSorting (field : SortableField) (st : State) : list action :=
  let reversed :=
    if is_field field (sortBy st) then negb (reverseSort st) else false in
  [SetReverseSort reversed; SetSortBy (Some field)].

(** The [onChange] of the search box, lines 171-174. *)
Definition onSearchChange (v : JS.str) (st : State) : list action :=
  [SetSearch v; SetCurrentPage 1].

(** The [onChange] of the pagination control, line 249. *)
Definition onPageChange (p : Z) (st : State) : list action :=
  [SetCurrentPage p].

(** The click on a row, lines 129-132. *)
Definition onRowClick (s : Ship) (st : State) : list action :=
  [SetSelectedShip (Some s); SetDrawerOpened true].

(** The outcome of [fetch] followed by [res.json ()]: the parsed array, or
    a rejection of either promise. *)
Inductive fetched : Type :=
| Resolved (data : list Ship)
| Rejected.

(** [fetchShips], lines 77-88, up to its [await] ... *)
Definition fetchShips_start : list action := [SetLoading true].

(** ... and from the [await] on.  Nothing here tests whether the
    component is still mounted, and the effect returns no cleanup. *)
Definition fetchShips_resume (r : fetched) : list action :=
  match r with
  | Resolved data => [SetShips data; SetLoading false]
  | Rejected => [ConsoleError "Failed to fetch ships"; SetLoading false]
  end.

(** The value the comparator reads off a record, lines 105-106:
    [sortBy === "missions" ? a.missions.length : a[sortBy] ?? ""]. *)
Definition sortValue (key : SortableField) (a : Ship) : JS.value :=
  match key with
  | Key_missions => JS.VNum (Z.of_nat (List.length (missions a)))
  | Key_ship_name => JS.VStr (ship_name a)
  | Key_ship_type => JS.VStr (ship_type a)
  | Key_year_built =>
      match year_built a with
      | Some y => JS.VNum y
      | None => JS.VStr ""
      end
  end.

(** The comparator, lines 104-116. *)
Definition comparefn (key : SortableField) (reverse : bool) (a b : Ship) : Z :=
  let valA := sortValue key a in
  let valB := sortValue key b in
  if JS.strict_eq valA valB then 0
  else if reverse
       then (if JS.gt valA valB then -1 else 1)
       else (if JS.gt valA valB then 1 else -1).

(** The predicate of [ships.filter], lines 99-101. *)
Definition matches (search_ : JS.str) (ship : Ship) : bool :=
  JS.includes (JS.toLowerCase (ship_name ship)) (JS.toLowerCase search_).

(** [filteredData], lines 98-120, as a function of the contents of the
    arrays. *)
Definition filteredData (ships_ : list Ship) (search_ : JS.str)
    (sortBy_ : option SortableField) (reverseSort_ : bool) : list Ship :=
  let data := List.filter (matches search_) ships_ in
  match sortBy_ with
  | Some key => JS.sort (comparefn key reverseSort_) data
  | None => data
  end.

(** [totalPages], line 122. *)
Definition totalPages (filtered : list Ship) : Z :=
  JS.ceil_div (Z.of_nat (List.length filtered)) pageSize.

(** [paginatedData], lines 123-126. *)
Definition paginatedData (filtered : list Ship) (page : Z) : list Ship :=
  JS.slice filtered ((page - 1) * pageSize) (page * pageSize).


(** The element the component returns for the table body, lines 181-241:
    the loader, the row of the empty state, or the row elements of the
    current page, one for each ship of [paginatedData], which React keys by
    ship name (line 129). *)
Inductive body : Type :=
| Loader
| NoShipsFound
| Rows (rows : list Ship).

Definition render (st : State) : body :=
  if loading st then Loader
  else
    match paginatedData
            (filteredData (ships st) (search st) (sortBy st) (reverseSort st))
            (currentPage st) with
    | [] => NoShipsFound
    | rows => Rows rows
    end.

(** The icon of a column header, [Th], lines 50-60. *)
Inductive icon : Type :=
| FiChevronUp
| FiChevronDown
| FiMoreVertical.

Definition Th (sorted reversed : bool) : icon :=
  if sorted then (if reversed then FiChevronUp else FiChevronDown)
  else FiMoreVertical.

(** The header of the sortable column [col], lines 191-225:
    [sorted={sortBy === col}] and [reversed={reverseSort}]. *)
Definition header (col : SortableField) (st : State) : icon :=
  Th (is_field col (sortBy st)) (reverseSort st).

(** Whether the pagination control is rendered, line 244. *)
Definition showPagination (filtered : list Ship) : bool :=
  Z.gtb (Z.of_nat (List.length filtered)) pageSize.

End Table.

(* ===================================================================== *)
(** ** The arrays of the list screen as mutable objects *)
(* ===================================================================== *)

(** [ships.filter (...)] returns a new array, [data.sort (...)] reorders the
    array it is called on, [filteredData.slice (...)] returns a new array.
    The store keeps the contents of every array under its reference, and a
    computation threads the store. *)
Module Store.
Import Table.

Definition M (A : Type) : Type :=
  gmap nat (list Ship) -> A * gmap nat (list Ship).

Definition ret {A : Type} (a : A) : M A := fun h => (a, h).

Definition bind {A B : Type} (m : M A) (k : A -> M B) : M B :=
  fun h => let (a, h') := m h in k a h'.

Notation "x <- m ;; k" := (bind m (fun x => k))
  (at level 100, m at next level, right associativity).

(** A new array: a reference the store does not hold yet. *)
Definition alloc (l : list Ship) : M nat :=
  fun h => let r := fresh (dom h) in (r, <[r := l]> h).

Definition read (r : nat) : M (list Ship) :=
  fun h => (default [] (h !! r), h).

Definition write (r : nat) (l : list Ship) : M unit :=
  fun h => (tt, <[r := l]> h).

Definition array_filter (r : nat) (p : Ship -> bool) : M nat :=
  l <- read r ;; alloc (List.filter p l).

(** In place: the reference returned is the one received. *)
Definition array_sort (r : nat) (comparefn : Ship -> Ship -> Z) : M nat :=
  l <- read r ;; _ <- write r (JS.sort comparefn l) ;; ret r.

Definition array_slice (r : nat) (start end_ : Z) : M nat :=
  l <- read r ;; alloc (JS.slice l start end_).

Definition array_length (r : nat) : M Z :=
  l <- read r ;; ret (Z.of_nat (List.length l)).

(** [filteredData], lines 98-120. *)
Definition filteredData (ships_ : nat) (search_ : JS.str)
    (sortBy_ : option SortableField) (reverseSort_ : bool) : M nat :=
  data <- array_filter ships_ (matches search_) ;;
  match sortBy_ with
  | Some key => _ <- array_sort data (comparefn key reverseSort_) ;; ret data
  | None => ret data
  end.

(** Lines 98-126: the rows of the current page and the number of pages. *)
Definition derive (ships_ : nat) (search_ : JS.str)
    (sortBy_ : option SortableField) (reverseSort_ : bool) (page : Z)
    : M (nat * Z) :=
  filtered <- filteredData ships_ search_ sortBy_ reverseSort_ ;;
  n <- array_length filtered ;;
  rows <- array_slice filtered ((page - 1) * pageSize) (page * pageSize) ;;
  ret (rows, JS.ceil_div n pageSize).

End Store.

(* ===================================================================== *)
(** ** The detail screen, [detailPage.tsx] *)
(* ===================================================================== *)

Module DetailPage.

#[local] Set Warnings "-register-all".

(** What [res.json ()] can resolve to.  The screen stores it unchecked. *)
Inductive json : Type :=
| JNull
| JBool (b : bool)
| JNum (q : Q)
| JStr (s : string)
| JArr (items : list json)
| JObj (fields : list (string * json)).

(** [j.k] for a [j] that is neither [null] nor [undefined]; [None] is
    [undefined].  Of a key given twice the parser keeps the last. *)
Definition prop (j : json) (k : string) : option json :=
  match j with
  | JObj fields =>
      match List.find (fun kv => String.eqb (fst kv) k) (rev fields) with
      | Some kv => Some (snd kv)
      | None => None
      end
  | _ => None
  end.

Definition truthy (j : json) : bool :=
  match j with
  | JNull => false
  | JBool b => b
  | JNum q => negb (Qeq_bool q 0)
  | JStr s => negb (String.eqb s "")
  | JArr _ | JObj _ => true
  end.

Record State : Type := {
  ship : json;
  loading : bool
}.

Definition initial : State := {| ship := JNull; loading := true |}.

Inductive action : Type :=
| SetShip (data : json)
| SetLoading (b : bool)
| ConsoleError (msg : string).

Definition is_setter (a : action) : bool :=
  match a with
  | ConsoleError _ => false
  | _ => true
  end.

Definition apply (a : action) (st : State) : State :=
  match a with
  | SetShip d => {| ship := d; loading := loading st |}
  | SetLoading b => {| ship := ship st; loading := b |}
  | ConsoleError _ => st
  end.

Definition run (acts : list action) (st : State) : State :=
  fold_left (fun s a => apply a s) acts st.

Definition console (acts : list action) : list string :=
  flat_map (fun a => match a with ConsoleError m => [m] | _ => [] end) acts.

(** The outcome of the request: a body that parsed, a rejected [fetch], or
    a body that [res.json ()] could not parse. *)
Inductive response : Type :=
| Body (data : json)
| Rejected
| Unparsable.

(** [fetchShip], lines 62-72, from its [await] on: it does nothing before
    it, and tests nothing about the component after it. *)
Definition fetchShip_resume (r : response) : list action :=
  match r with
  | Body data => [SetShip data; SetLoading false]
  | Rejected | Unparsable =>
      [ConsoleError "Error fetching ship:"; SetLoading false]
  end.

(** A value React accepts as a child: anything but a plain object. *)
Fixpoint valid_child (j : json) : bool :=
  match j with
  | JObj _ => false
  | JArr items => forallb valid_child items
  | _ => true
  end.

Definition child_ok (v : option json) : bool :=
  match v with
  | Some j => valid_child j
  | None => true
  end.

(** [v || 'N/A'], [v ?? 'N/A'] and [v?.k]. *)
Definition or_NA (v : option json) : option json :=
  match v with
  | Some j => if truthy j then Some j else Some (JStr "N/A")
  | None => Some (JStr "N/A")
  end.

Definition nullish_NA (v : option json) : option json :=
  match v with
  | None | Some JNull => Some (JStr "N/A")
  | Some j => Some j
  end.

Definition optional_prop (v : option json) (k : string) : option json :=
  match v with
  | None | Some JNull => None
  | Some j => prop j k
  end.

(** [ship.roles.map (role => <Badge>{role}</Badge>)], lines 157-161: a
    [TypeError] unless [roles] is an array. *)
Definition roles_ok (s : json) : bool :=
  match prop s "roles" with
  | Some (JArr items) => forallb valid_child items
  | _ => false
  end.

(** [ship.missions.map (m => ... m.name ... m.flight ...)], lines
    168-174: a [TypeError] unless [missions] is an array without [null]. *)
Definition mission_ok (m : json) : bool :=
  match m with
  | JNull => false
  | _ => (child_ok (prop m "name") && child_ok (prop m "flight"))%bool
  end.

Definition missions_ok (s : json) : bool :=
  match prop s "missions" with
  | Some (JArr items) => forallb mission_ok items
  | _ => false
  end.

(** The values lines 108 and 128-150 hand to React as children. *)
Definition fields_ok (s : json) : bool :=
  forallb child_ok
    [ prop s "ship_name"; prop s "ship_id"; or_NA (prop s "ship_model");
      prop s "ship_type"; prop s "home_port"; prop s "year_built";
      prop s "status"; prop s "imo"; prop s "mmsi";
      nullish_NA (prop s "abs"); nullish_NA (prop s "class");
      nullish_NA (prop s "successful_landings");
      nullish_NA (prop s "attempted_landings");
      nullish_NA (optional_prop (prop s "position") "latitude");
      nullish_NA (optional_prop (prop s "position") "longitude") ].

(** What the component returns, lines 88-191; [Throws] is an exception
    raised while the details are rendered. *)
Inductive screen : Type :=
| Loader
| ShipNotFound
| Details (s : json)
| Throws.

Definition render (st : State) : screen :=
  if loading st then Loader
  else if negb (truthy (ship st)) then ShipNotFound
  else if (fields_ok (ship st) && roles_ok (ship st)
           && missions_ok (ship st))%bool
       then Details (ship st)
       else Throws.

(** The shape the screen declares for a ship, lines 19-53. *)
Record Mission : Type := {
  name : string;
  flight : Q
}.

Record Position : Type := {
  latitude : Q;
  longitude : Q
}.

Record Ship : Type := {
  ship_id : string;
  ship_name : string;
  ship_model : option string;
  ship_type : string;
  roles : list string;
  active : bool;
  imo : Q;
  mmsi : Q;
  abs : option Q;
  class : option string;
  weight_lbs : Q;
  weight_kg : Q;
  year_built : Q;
  home_port : string;
  status : string;
  speed_kn : Q;
  course_deg : Q;
  position : Position;
  successful_landings : option Q;
  attempted_landings : option Q;
  missions : list Mission;
  url : string;
  image : option string
}.

(** The parsed body of a reply that has that shape; [null] stands for an
    absent optional value. *)
Definition nullable {A : Type} (f : A -> json) (o : option A) : json :=
  match o with
  | Some a => f a
  | None => JNull
  end.

Definition mission_json (m : Mission) : json :=
  JObj [("name", JStr (name m)); ("flight", JNum (flight m))].

Definition position_json (p : Position) : json :=
  JObj [("latitude", JNum (latitude p)); ("longitude", JNum (longitude p))].

Definition ship_json (s : Ship) : json :=
  JObj [ ("ship_id", JStr (ship_id s));
         ("ship_name", JStr (ship_name s));
         ("ship_model", nullable JStr (ship_model s));
         ("ship_type", JStr (ship_type s));
         ("roles", JArr (List.map JStr (roles s)));
         ("active", JBool (active s));
         ("imo", JNum (imo s));
         ("mmsi", JNum (mmsi s));
         ("abs", nullable JNum (abs s));
         ("class", nullable JStr (class s));
         ("weight_lbs", JNum (weight_lbs s));
         ("weight_kg", JNum (weight_kg s));
         ("year_built", JNum (year_built s));
         ("home_port", JStr (home_port s));
         ("status", JStr (status s));
         ("speed_kn", JNum (speed_kn s));
         ("course_deg", JNum (course_deg s));
         ("position", position_json (position s));
         ("successful_landings", nullable JNum (successful_landings s));
         ("attempted_landings", nullable JNum (attempted_landings s));
         ("missions", JArr (List.map mission_json (missions s)));
         ("url", JStr (url s));
         ("image", nullable JStr (image s)) ].

(** The requests of one activation, settled one after the other: the
    effect runs again whenever the identifier changes, lines 61-75. *)
Definition settle_all (rs : list response) (st : State) : State :=
  fold_left (fun s r => run (fetchShip_resume r) s) rs st.

End DetailPage.

(* ===================================================================== *)
(** ** A screen and its outstanding fetch *)
(* ===================================================================== *)

(** A screen instance: whether it is still active, and its state cells. *)
Module Lifecycle.

Record instance (S : Type) : Type := {
  mounted : bool;
  cells : S
}.
Arguments mounted {S} _.
Arguments cells {S} _.

Definition deactivate {S : Type} (i : instance S) : instance S :=
  {| mounted := false; cells := cells i |}.

(** What the code of the list screen does when the fetch it started
    settles: the rest of [fetchShips], whatever the instance. *)
Definition table_settled (i : instance Table.State) (r : Table.fetched)
    : list Table.action :=
  Table.fetchShips_resume r.

(** The same for the detail screen and [fetchShip]. *)
Definition detail_settled (i : instance DetailPage.State)
    (r : DetailPage.response) : list DetailPage.action :=
  DetailPage.fetchShip_resume r.

End Lifecycle.

(* ===================================================================== *)
(** ** What the claims are stated with *)
(* ===================================================================== *)

Import Table.

(** Two code units that differ at most by the case of an ASCII letter:
    the same unit, or a capital letter [A .. Z] and its small letter. *)
Definition same_letter (c d : Z) : Prop :=
  c = d
  \/ (65 <= c <= 90 /\ d = c + 32)
  \/ (65 <= d <= 90 /\ c = d + 32).

(** Two strings of the same length, equal up to the case of their ASCII
    letters. *)
Inductive eq_nocase : JS.str -> JS.str -> Prop :=
| eq_nocase_nil : eq_nocase [] []
| eq_nocase_cons c d s t :
    same_letter c d -> eq_nocase s t -> eq_nocase (c :: s) (d :: t).

(** [s] occurs in [name], up to the case of the ASCII letters, as a run of
    adjacent code units. *)
Definition contains_nocase (name s : JS.str) : Prop :=
  exists pre mid post, name = pre ++ mid ++ post /\ eq_nocase mid s.

(** A string written with ASCII characters only. *)
Definition ascii_only (s : JS.str) : Prop :=
  Forall (fun u => 0 <= u < 128) s.

(** The small letter of an ASCII capital letter, any other unit itself. *)
Definition small_letter (c : Z) : Z :=
  if (Z.leb 65 c && Z.leb c 90)%bool then c + 32 else c.

(** Two facts of the Unicode tables, in a form that computes: the
    lowercase mapping of an ASCII code unit is its small letter, and the
    ASCII letters are cased and not case-ignorable. *)
Definition ascii_unit_checked (c : Z) : bool :=
  JS.str_eqb (JS.Lowercase_Mapping c) [small_letter c].

Definition ascii_letter_checked (c : Z) : bool :=
  (JS.Cased c && JS.Cased (c + 32)
   && negb (JS.Case_Ignorable c) && negb (JS.Case_Ignorable (c + 32)))%bool.

(** The page numbers [1 .. n]. *)
Definition page_numbers (n : Z) : list Z :=
  List.map Z.of_nat (seq 1 (Z.to_nat n)).

(** The collection the table displays, all pages together. *)
Definition displayed (st : State) : list Ship :=
  Table.filteredData (ships st) (search st) (sortBy st) (reverseSort st).

(** The state after a click on the header of column [k]. *)
Definition click (k : SortableField) (st : State) : State :=
  run (setSorting k st) st.

(** The year the comparator orders by: its number, and [0] for the empty
    string that stands for a missing year. *)
Definition year_rank (a : Ship) : Z :=
  match year_built a with
  | Some y => y
  | None => 0
  end.

Definition mission_count (a : Ship) : Z :=
  Z.of_nat (List.length (missions a)).

(** [a] is ranked no higher than [b]. *)
Definition rank_le {A : Type} (rank : A -> Z) (a b : A) : Prop :=
  rank a <= rank b.

(** [a] stands somewhere before [b] in [l]. *)
Definition before {A : Type} (a b : A) (l : list A) : Prop :=
  exists l1 l2 l3, l = l1 ++ a :: l2 ++ b :: l3.

(** Sample records. *)
Definition vessel (id : Z) (nm : JS.str) (year : option Z) (flights : nat)
    : Ship :=
  {| ship_id := id; ship_name := nm; ship_type := "Tug"; roles := [JS.utf16 "Support"];
     home_port := "Port Canaveral"; year_built := year; active := true;
     image := None;
     missions := repeat {| name := "Flight" |} flights |}.

Definition alpha : Ship := vessel 1 "Alpha" (Some 2010) 3.
Definition beta : Ship := vessel 2 "Beta" None 0.
Definition orion : Ship := vessel 3 "Orion" (Some 1999) 1.

(** A ship with a Greek name, capital alpha and capital sigma. *)
Definition alpha_sigma : Ship := vessel 4 [0x391; 0x3A3] None 0.

(** Two ships without a year and two of the year 0, in turn. *)
Definition no_year_1 : Ship := vessel 11 "S1" None 0.
Definition year_zero_2 : Ship := vessel 12 "S2" (Some 0) 0.
Definition no_year_3 : Ship := vessel 13 "S3" None 0.
Definition year_zero_4 : Ship := vessel 14 "S4" (Some 0) 0.

Definition sorted_by_name (reverse : bool) : State :=
  {| ships := [alpha; beta; orion]; loading := false; search := "";
     sortBy := Some Key_ship_name; reverseSort := reverse;
     selectedShip := None; drawerOpened := false; currentPage := 1 |}.

(** The body of a reply that carries an error instead of a ship. *)
Definition error_body : DetailPage.json :=
  DetailPage.JObj [("error", DetailPage.JStr "Not Found")].

(** The order the table is sorted in under [key]: strings by their code
    units, mission counts and years as numbers, a missing year as [0]. *)
Definition key_le (key : SortableField) (a b : Ship) : Prop :=
  match key with
  | Key_ship_name => JS.str_leb (ship_name a) (ship_name b) = true
  | Key_ship_type => JS.str_leb (ship_type a) (ship_type b) = true
  | Key_year_built => year_rank a <= year_rank b
  | Key_missions => mission_count a <= mission_count b
  end.

(** What can happen to the list screen once it is mounted. *)
Inductive event : Type :=
| SearchChanged (v : JS.str)
| HeaderClicked (k : SortableField)
| PageChanged (p : Z)
| RowClicked (s : Ship)
| FetchSettled (r : fetched).

Definition handle (e : event) (st : State) : list action :=
  match e with
  | SearchChanged v => onSearchChange v st
  | HeaderClicked k => setSorting k st
  | PageChanged p => onPageChange p st
  | RowClicked s => onRowClick s st
  | FetchSettled r => fetchShips_resume r
  end.

Definition step (e : event) (st : State) : State := run (handle e st) st.

(** When the screen offers the event, lines 163-257: the search box is
    always there; the headers, the rows and the pagination control only once
    the loader is gone; the pagination control only for more than one page,
    and it reports a page among those it shows; the only fetch, started on
    mount (lines 76-90), settles once. *)
Definition enabled (pending : bool) (e : event) (st : State) : Prop :=
  match e with
  | SearchChanged _ => True
  | HeaderClicked _ => loading st = false
  | PageChanged p =>
      loading st = false
      /\ showPagination (displayed st) = true
      /\ 1 <= p <= totalPages (displayed st)
  | RowClicked s =>
      loading st = false
      /\ In s (paginatedData (displayed st) (currentPage st))
  | FetchSettled _ => pending = true
  end.

Definition still_pending (pending : bool) (e : event) : bool :=
  match e with
  | FetchSettled _ => false
  | _ => pending
  end.

(** The states of a mounted list screen, with whether its fetch is still
    outstanding. *)
Inductive reachable : bool -> State -> Prop :=
| reachable_mount : reachable true (run fetchShips_start Table.initial)
| reachable_step pending e st :
    reachable pending st -> enabled pending e st ->
    reachable (still_pending pending e) (step e st).

(** What every state of a mounted list screen satisfies. *)
Definition table_invariant (pending : bool) (st : State) : Prop :=
  (pending = true ->
     loading st = true /\ ships st = [] /\ selectedShip st = None
     /\ drawerOpened st = false /\ currentPage st = 1)
  /\ (pending = false -> loading st = false)
  /\ (drawerOpened st = true <-> selectedShip st <> None)
  /\ (forall s, selectedShip st = Some s -> In s (ships st))
  /\ (currentPage st = 1
      \/ 1 <= currentPage st <= totalPages (displayed st))
  /\ (sortBy st = None -> reverseSort st = false).

(** A sample ship of the detail screen. *)
Definition champion : DetailPage.Ship :=
  {| DetailPage.ship_id := "AMERICANCHAMPION";
     DetailPage.ship_name := "American Champion";
     DetailPage.ship_model := None;
     DetailPage.ship_type := "Tug";
     DetailPage.roles := ["Support Ship"; "Barge Tug"];
     DetailPage.active := false;
     DetailPage.imo := 7434016 # 1;
     DetailPage.mmsi := 367020820 # 1;
     DetailPage.abs := Some (571252 # 1);
     DetailPage.class := Some "7604342";
     DetailPage.weight_lbs := 588000 # 1;
     DetailPage.weight_kg := 266712 # 1;
     DetailPage.year_built := 1976 # 1;
     DetailPage.home_port := "Port of Los Angeles";
     DetailPage.status := "Stopped";
     DetailPage.speed_kn := 0 # 1;
     DetailPage.course_deg := 0 # 1;
     DetailPage.position :=
       {| DetailPage.latitude := 3019 # 100;
          DetailPage.longitude := (-8803) # 100 |};
     DetailPage.successful_landings := None;
     DetailPage.attempted_landings := None;
     DetailPage.missions :=
       [ {| DetailPage.name := "COTS 1"; DetailPage.flight := 7 # 1 |} ];
     DetailPage.url := "https://www.marinetraffic.com/";
     DetailPage.image := None |}.

(** Case analysis on the integer tests of a goal. *)
Ltac cases_Z :=
  rewrite ?Z.gtb_ltb;
  repeat match goal with
    | |- context [if Z.eqb ?a ?b then _ else _] => destruct (Z.eqb_spec a b)
    | |- context [if Z.ltb ?a ?b then _ else _] => destruct (Z.ltb_spec a b)
    end;
  simpl;
  repeat match goal with
    | |- context [Z.ltb ?a ?b] => destruct (Z.ltb_spec a b)
    end;
  try reflexivity; try (exfalso; lia).

(* ===================================================================== *)
(** ** Strings *)
(* ===================================================================== *)

Section Strings.

Lemma prefix_spec (sub s : JS.str) :
  JS.prefix sub s = true <-> exists post, s = sub ++ post.
Proof.
  revert s. induction sub as [|a sub IH]; intros s.
  - split; [intros _; now exists s | reflexivity].
  - destruct s as [|b s]; simpl.
    + split; [discriminate | intros [post H]; discriminate].
    + rewrite andb_true_iff, Z.eqb_eq, IH. split.
      * intros [-> [post ->]]. now exists post.
      * intros [post H]. inversion H. split; [reflexivity | now exists post].
Qed.

Lemma includes_nil (sub : JS.str) :
  JS.includes [] sub = (JS.prefix sub [] || false)%bool.
Proof. reflexivity. Qed.

Lemma includes_cons (c : Z) (s sub : JS.str) :
  JS.includes (c :: s) sub = (JS.prefix sub (c :: s) || JS.includes s sub)%bool.
Proof. reflexivity. Qed.

Lemma includes_spec (s sub : JS.str) :
  JS.includes s sub = true <-> exists pre post, s = pre ++ sub ++ post.
Proof.
  induction s as [|c s IH]; [rewrite includes_nil | rewrite includes_cons].
  - rewrite orb_false_r, prefix_spec. split.
    + intros [post H]. now exists [], post.
    + intros [pre [post H]]. destruct pre as [|x pre]; [now exists post|].
      discriminate.
  - rewrite orb_true_iff, prefix_spec, IH. split.
    + intros [[post H] | [pre [post H]]].
      * now exists [], post.
      * exists (c :: pre), post. simpl. now rewrite H.
    + intros [pre [post H]]. destruct pre as [|d pre].
      * left. now exists post.
      * right. inversion H; subst. now exists pre, post.
Qed.

(** A string that occurs in a string that occurs in a third one. *)
Lemma includes_trans (a b c : JS.str) :
  JS.includes a b = true -> JS.includes b c = true -> JS.includes a c = true.
Proof.
  rewrite !includes_spec. intros [p [q Ha]] [p' [q' Hb]].
  exists (p ++ p'), (q' ++ q). rewrite Ha, Hb.
  now rewrite <- !app_assoc.
Qed.

Lemma str_eqb_eq (s t : JS.str) : JS.str_eqb s t = true <-> s = t.
Proof.
  revert t. induction s as [|a s IH]; intros [|b t]; simpl;
    try (split; [discriminate | intros H; discriminate]).
  - now split.
  - rewrite andb_true_iff, Z.eqb_eq, IH. split.
    + now intros [-> ->].
    + intros H. now inversion H.
Qed.

Lemma str_eqb_refl (s : JS.str) : JS.str_eqb s s = true.
Proof. now apply str_eqb_eq. Qed.

(** *** The Unicode tables on the ASCII code units *)

Lemma below_in_seq (n : nat) (c : Z) :
  0 <= c < Z.of_nat n -> In c (List.map Z.of_nat (seq 0 n)).
Proof.
  intros H. apply in_map_iff. exists (Z.to_nat c). split; [lia|].
  apply in_seq. lia.
Qed.

Lemma ascii_units_checked :
  forallb ascii_unit_checked (List.map Z.of_nat (seq 0 128)) = true.
Proof. vm_compute. reflexivity. Qed.

Lemma ascii_letters_checked :
  forallb (fun k => ascii_letter_checked (65 + k))
    (List.map Z.of_nat (seq 0 26)) = true.
Proof. vm_compute. reflexivity. Qed.

Lemma Lowercase_Mapping_ascii (c : Z) :
  0 <= c < 128 -> JS.Lowercase_Mapping c = [small_letter c].
Proof.
  intros H. apply str_eqb_eq.
  apply (proj1 (forallb_forall _ _) ascii_units_checked c).
  now apply (below_in_seq 128).
Qed.

Lemma ascii_letter_properties (c : Z) :
  65 <= c <= 90 ->
  JS.Cased c = true /\ JS.Cased (c + 32) = true
  /\ JS.Case_Ignorable c = false /\ JS.Case_Ignorable (c + 32) = false.
Proof.
  intros H.
  pose proof (proj1 (forallb_forall _ _) ascii_letters_checked (c - 65)
                (below_in_seq 26 (c - 65) ltac:(lia))) as Hc.
  simpl in Hc. replace (65 + (c - 65)) with c in Hc by lia.
  unfold ascii_letter_checked in Hc.
  repeat (apply andb_prop in Hc; destruct Hc as [Hc ?]).
  repeat split; try assumption; now apply negb_true_iff.
Qed.

Lemma small_letter_ascii (c : Z) : 0 <= c < 128 -> 0 <= small_letter c < 128.
Proof.
  intros H. unfold small_letter.
  destruct (Z.leb_spec 65 c), (Z.leb_spec c 90); simpl; lia.
Qed.

Lemma is_high_below (c : Z) : c < 0xD800 -> JS.is_high c = false.
Proof.
  intros H. unfold JS.is_high. destruct (Z.leb_spec 0xD800 c); [lia|reflexivity].
Qed.

Lemma is_low_below (c : Z) : c < 0xDC00 -> JS.is_low c = false.
Proof.
  intros H. unfold JS.is_low. destruct (Z.leb_spec 0xDC00 c); [lia|reflexivity].
Qed.

(** *** [toLowerCase] on an ASCII string: letter by letter *)

Lemma code_points_ascii (s : JS.str) : ascii_only s -> JS.code_points s = s.
Proof.
  induction 1 as [|u s Hu Hs IH]; [reflexivity|].
  simpl. destruct s as [|v s']; [reflexivity|].
  rewrite is_high_below by lia. simpl in *. now rewrite IH.
Qed.

Lemma lower_points_ascii (before s : list Z) :
  ascii_only s -> JS.lower_points before s = List.map small_letter s.
Proof.
  intros H. revert before. induction H as [|u s Hu Hs IH]; intros before.
  - reflexivity.
  - simpl. destruct (Z.eqb_spec u 0x3A3) as [E|_]; [lia|].
    rewrite Lowercase_Mapping_ascii by assumption. simpl. now rewrite IH.
Qed.

Lemma code_units_ascii (s : list Z) : ascii_only s -> JS.code_units s = s.
Proof.
  induction 1 as [|u s Hu Hs IH]; [reflexivity|].
  unfold JS.code_units in *. simpl. rewrite IH. unfold JS.units_of.
  destruct (Z.ltb_spec u 0x10000); [reflexivity | lia].
Qed.

Lemma map_small_letter_ascii (s : JS.str) :
  ascii_only s -> ascii_only (List.map small_letter s).
Proof.
  induction 1 as [|u s Hu Hs IH]; simpl; constructor;
    [now apply small_letter_ascii | exact IH].
Qed.

Lemma toLowerCase_ascii (s : JS.str) :
  ascii_only s -> JS.toLowerCase s = List.map small_letter s.
Proof.
  intros H. unfold JS.toLowerCase.
  rewrite code_points_ascii, lower_points_ascii by assumption.
  now apply code_units_ascii, map_small_letter_ascii.
Qed.

(** *** Equality up to the case of the ASCII letters *)

Lemma same_letter_small (c d : Z) :
  same_letter c d <-> small_letter c = small_letter d.
Proof.
  unfold same_letter, small_letter.
  destruct (Z.leb_spec 65 c), (Z.leb_spec c 90), (Z.leb_spec 65 d),
    (Z.leb_spec d 90); simpl; lia.
Qed.

Lemma eq_nocase_small (s t : JS.str) :
  eq_nocase s t <-> List.map small_letter s = List.map small_letter t.
Proof.
  split.
  - induction 1 as [|c d s t Hcd _ IH]; simpl; [reflexivity|].
    apply same_letter_small in Hcd. now rewrite Hcd, IH.
  - revert t. induction s as [|c s IH]; intros [|d t] H; simpl in H;
      try discriminate; [constructor|].
    inversion H. constructor; [now apply same_letter_small | now apply IH].
Qed.

Lemma eq_nocase_refl (s : JS.str) : eq_nocase s s.
Proof. now apply eq_nocase_small. Qed.

Lemma eq_nocase_ascii (s t : JS.str) :
  eq_nocase s t -> ascii_only s -> ascii_only t.
Proof.
  induction 1 as [|c d s t Hcd _ IH]; intros Hs; [constructor|].
  inversion Hs as [|? ? Hc Hs']; subst. constructor; [|now apply IH].
  unfold same_letter in Hcd. lia.
Qed.

Lemma ascii_only_checked (s : JS.str) :
  forallb (fun u => (Z.leb 0 u && Z.ltb u 128)%bool) s = true -> ascii_only s.
Proof.
  intros H. apply List.Forall_forall. intros u Hu.
  apply (proj1 (forallb_forall _ _) H) in Hu.
  apply andb_prop in Hu. destruct Hu as [H0 H1].
  apply Z.leb_le in H0. apply Z.ltb_lt in H1. lia.
Qed.

Lemma ascii_only_app (a b : JS.str) :
  ascii_only (a ++ b) <-> ascii_only a /\ ascii_only b.
Proof. unfold ascii_only. apply List.Forall_app. Qed.

Lemma map_eq_split (f : Z -> Z) (s p q : list Z) :
  List.map f s = p ++ q ->
  exists a b, s = a ++ b /\ List.map f a = p /\ List.map f b = q.
Proof.
  revert s. induction p as [|c p IH]; intros s H.
  - now exists [], s.
  - destruct s as [|d s]; simpl in H; [discriminate|].
    inversion H as [[Hc Hs]]. destruct (IH _ Hs) as [a [b [E [Ha Hb]]]].
    exists (d :: a), b. simpl. now rewrite E, Ha.
Qed.

(** The parts of the Unicode data two such units cannot tell apart. *)
Lemma same_letter_data (c d : Z) :
  same_letter c d ->
  JS.is_high c = JS.is_high d /\ JS.is_low c = JS.is_low d
  /\ ((JS.is_high c || JS.is_low c)%bool = true -> c = d)
  /\ Z.eqb c 0x3A3 = Z.eqb d 0x3A3
  /\ JS.Lowercase_Mapping c = JS.Lowercase_Mapping d
  /\ JS.Cased c = JS.Cased d
  /\ JS.Case_Ignorable c = JS.Case_Ignorable d.
Proof.
  intros [-> | [[Hc ->] | [Hd ->]]].
  - repeat split; reflexivity.
  - destruct (ascii_letter_properties c Hc) as (C1 & C2 & I1 & I2).
    rewrite !is_high_below, !is_low_below by lia.
    rewrite (Lowercase_Mapping_ascii c), (Lowercase_Mapping_ascii (c + 32))
      by lia.
    rewrite C1, C2, I1, I2.
    assert (small_letter c = small_letter (c + 32))
      by (apply same_letter_small; right; left; now split).
    repeat split; try congruence; try discriminate.
    destruct (Z.eqb_spec c 0x3A3), (Z.eqb_spec (c + 32) 0x3A3);
      try reflexivity; lia.
  - destruct (ascii_letter_properties d Hd) as (C1 & C2 & I1 & I2).
    rewrite !is_high_below, !is_low_below by lia.
    rewrite (Lowercase_Mapping_ascii d), (Lowercase_Mapping_ascii (d + 32))
      by lia.
    rewrite C1, C2, I1, I2.
    assert (small_letter d = small_letter (d + 32))
      by (apply same_letter_small; right; left; now split).
    repeat split; try congruence; try discriminate.
    destruct (Z.eqb_spec d 0x3A3), (Z.eqb_spec (d + 32) 0x3A3);
      try reflexivity; lia.
Qed.

Lemma code_points_nocase (n : nat) (s t : JS.str) :
  (List.length s <= n)%nat -> eq_nocase s t ->
  eq_nocase (JS.code_points s) (JS.code_points t).
Proof.
  revert s t. induction n as [|n IH]; intros s t Hn H.
  - destruct H; [constructor | simpl in Hn; lia].
  - destruct H as [|c d s t Hcd H]; [constructor|].
    simpl in Hn.
    destruct H as [|c2 d2 s2 t2 Hcd2 H2];
      [simpl; constructor; [exact Hcd | constructor]|].
    cbn [JS.code_points].
    destruct (same_letter_data c d Hcd) as (Hh & _ & Heq & _).
    destruct (same_letter_data c2 d2 Hcd2) as (_ & Hl & Heq2 & _).
    rewrite <- Hh, <- Hl.
    destruct (JS.is_high c) eqn:Eh, (JS.is_low c2) eqn:El; simpl.
    + rewrite (Heq eq_refl), (Heq2 (orb_true_r _)).
      constructor; [now left|]. apply IH; [simpl in Hn; lia | exact H2].
    + constructor; [exact Hcd|].
      apply (IH (c2 :: s2) (d2 :: t2)); [lia | now constructor].
    + constructor; [exact Hcd|].
      apply (IH (c2 :: s2) (d2 :: t2)); [lia | now constructor].
    + constructor; [exact Hcd|].
      apply (IH (c2 :: s2) (d2 :: t2)); [lia | now constructor].
Qed.

Lemma cased_letter_next_nocase (l l' : list Z) :
  eq_nocase l l' -> JS.cased_letter_next l = JS.cased_letter_next l'.
Proof.
  induction 1 as [|c d s t Hcd _ IH]; [reflexivity|]. simpl.
  destruct (same_letter_data c d Hcd) as (_ & _ & _ & _ & _ & Hc & Hi).
  now rewrite Hc, Hi, IH.
Qed.

Lemma lower_points_nocase (l l' : list Z) :
  eq_nocase l l' ->
  forall b b', eq_nocase b b' -> JS.lower_points b l = JS.lower_points b' l'.
Proof.
  induction 1 as [|c d s t Hcd Hst IH]; intros b b' Hb; [reflexivity|].
  simpl.
  destruct (same_letter_data c d Hcd) as (_ & _ & _ & Hs & Hm & _ & _).
  rewrite <- Hs, <- Hm. unfold JS.Final_Sigma.
  rewrite (cased_letter_next_nocase b b' Hb).
  rewrite (cased_letter_next_nocase s t Hst).
  rewrite (IH (c :: b) (d :: b')) by (now constructor). reflexivity.
Qed.

(** Strings equal up to the case of their ASCII letters have the same
    lowercase form, whatever else they hold. *)
Lemma toLowerCase_nocase (s t : JS.str) :
  eq_nocase s t -> JS.toLowerCase s = JS.toLowerCase t.
Proof.
  intros H. unfold JS.toLowerCase. f_equal.
  apply lower_points_nocase; [|constructor].
  now apply (code_points_nocase (List.length s)).
Qed.

(** *** The predicate of the filter *)

Lemma matches_includes (s : JS.str) (r : Ship) :
  matches s r = true
  <-> exists pre post,
        JS.toLowerCase (ship_name r) = pre ++ JS.toLowerCase s ++ post.
Proof. unfold matches. apply includes_spec. Qed.

Lemma contains_nocase_ascii (name s : JS.str) :
  ascii_only name -> ascii_only s ->
  JS.includes (JS.toLowerCase name) (JS.toLowerCase s) = true
  <-> contains_nocase name s.
Proof.
  intros Hn Hs. rewrite !toLowerCase_ascii by assumption.
  unfold contains_nocase. rewrite includes_spec. split.
  - intros [p [q H]].
    destruct (map_eq_split _ _ _ _ H) as [pre [rest [E1 [Hp Hr]]]].
    destruct (map_eq_split _ _ _ _ Hr) as [mid [post [E2 [Hm Hq]]]].
    exists pre, mid, post. split; [now rewrite E1, E2|].
    now apply eq_nocase_small.
  - intros [pre [mid [post [E H]]]]. apply eq_nocase_small in H.
    exists (List.map small_letter pre), (List.map small_letter post).
    now rewrite E, !List.map_app, H.
Qed.

Lemma matches_empty (r : Ship) : matches [] r = true.
Proof. unfold matches. now destruct (JS.toLowerCase (ship_name r)). Qed.

End Strings.

(* ===================================================================== *)
(** ** The sort *)
(* ===================================================================== *)

Section Sort.

Context {A : Type}.
Variable comparefn : A -> A -> Z.

Lemma sort_insert_perm (x : A) (l : list A) :
  Permutation (JS.sort_insert comparefn x l) (x :: l).
Proof.
  induction l as [|y l IH]; simpl; [reflexivity|].
  destruct (Z.gtb (comparefn x y) 0); [|reflexivity].
  rewrite IH. apply perm_swap.
Qed.

Lemma sort_perm (l : list A) : Permutation (JS.sort comparefn l) l.
Proof.
  induction l as [|x l IH]; simpl; [reflexivity|].
  fold (JS.sort comparefn l). rewrite sort_insert_perm. now constructor.
Qed.

Lemma sort_In (l : list A) (x : A) : In x (JS.sort comparefn l) <-> In x l.
Proof.
  split; apply Permutation_in; [|symmetry]; apply sort_perm.
Qed.

Lemma sort_length (l : list A) :
  List.length (JS.sort comparefn l) = List.length l.
Proof. apply Permutation_length, sort_perm. Qed.

(** Stability: a class of elements none of which the comparator puts
    after another one of the class keeps its order. *)
Section Stable.

Variable p : A -> bool.
Hypothesis p_ties :
  forall x y, p x = true -> p y = true -> Z.gtb (comparefn x y) 0 = false.

Lemma sort_insert_filter (x : A) (l : list A) :
  List.filter p (JS.sort_insert comparefn x l)
  = List.filter p (x :: l).
Proof.
  induction l as [|y l IH]; [reflexivity|].
  simpl JS.sort_insert.
  destruct (Z.gtb (comparefn x y) 0) eqn:Hgt; [|reflexivity].
  simpl in *. rewrite IH.
  destruct (p x) eqn:Hx, (p y) eqn:Hy; try reflexivity.
  rewrite (p_ties x y Hx Hy) in Hgt. discriminate.
Qed.

Lemma sort_filter (l : list A) :
  List.filter p (JS.sort comparefn l) = List.filter p l.
Proof.
  induction l as [|x l IH]; [reflexivity|].
  simpl JS.sort. fold (JS.sort comparefn l).
  rewrite sort_insert_filter. simpl. now rewrite IH.
Qed.

End Stable.

(** Order: when the comparator is positive exactly where a rank
    decreases, the output is ranked in ascending order. *)
Section Ranked.

Variable rank : A -> Z.
Hypothesis comparefn_rank :
  forall a b, Z.gtb (comparefn a b) 0 = Z.gtb (rank a) (rank b).

Lemma sort_insert_sorted (x : A) (l : list A) :
  StronglySorted (rank_le rank) l ->
  StronglySorted (rank_le rank) (JS.sort_insert comparefn x l).
Proof.
  induction 1 as [|y l Hl IH Hy]; simpl.
  - repeat constructor.
  - rewrite comparefn_rank.
    destruct (Z.gtb (rank x) (rank y)) eqn:Hgt.
    + constructor; [assumption|].
      rewrite sort_insert_perm.
      constructor; [unfold rank_le; lia | assumption].
    + constructor; [now constructor|].
      constructor; [unfold rank_le; lia|].
      eapply Forall_impl; [exact Hy|].
      unfold rank_le. intros a Ha. lia.
Qed.

Lemma sort_sorted (l : list A) :
  StronglySorted (rank_le rank) (JS.sort comparefn l).
Proof.
  induction l as [|x l IH]; simpl; [constructor|].
  now apply sort_insert_sorted.
Qed.

End Ranked.

End Sort.


(* ===================================================================== *)
(** ** The comparator *)
(* ===================================================================== *)

Section Comparator.

Lemma strict_eq_iff (a b : JS.value) : JS.strict_eq a b = true <-> a = b.
Proof.
  destruct a as [x|s], b as [y|t]; simpl.
  - rewrite Z.eqb_eq. split; congruence.
  - split; discriminate.
  - split; discriminate.
  - rewrite str_eqb_eq. split; congruence.
Qed.

Lemma strict_eq_refl (a : JS.value) : JS.strict_eq a a = true.
Proof. now apply strict_eq_iff. Qed.

(** Two records whose values are strictly equal compare as [0]. *)
Lemma comparefn_ties (key : SortableField) (reverse : bool) (v : JS.value)
    (x y : Ship) :
  JS.strict_eq (sortValue key x) v = true ->
  JS.strict_eq (sortValue key y) v = true ->
  Z.gtb (comparefn key reverse x y) 0 = false.
Proof.
  intros Hx Hy. apply strict_eq_iff in Hx, Hy. unfold comparefn.
  rewrite Hx, Hy, strict_eq_refl. reflexivity.
Qed.

Lemma comparefn_missions_asc (a b : Ship) :
  Z.gtb (comparefn Key_missions false a b) 0
  = Z.gtb (mission_count a) (mission_count b).
Proof.
  unfold comparefn, mission_count, sortValue, JS.strict_eq, JS.gt.
  simpl. generalize (Z.of_nat (List.length (missions a))),
    (Z.of_nat (List.length (missions b))). intros m n. cases_Z.
Qed.

Lemma comparefn_missions_desc (a b : Ship) :
  Z.gtb (comparefn Key_missions true a b) 0
  = Z.gtb (- mission_count a) (- mission_count b).
Proof.
  unfold comparefn, mission_count, sortValue, JS.strict_eq, JS.gt.
  simpl. generalize (Z.of_nat (List.length (missions a))),
    (Z.of_nat (List.length (missions b))). intros m n. cases_Z.
Qed.

Lemma comparefn_year_asc (a b : Ship) :
  Z.gtb (comparefn Key_year_built false a b) 0
  = Z.gtb (year_rank a) (year_rank b).
Proof.
  unfold comparefn, year_rank, sortValue, JS.strict_eq, JS.gt.
  destruct (year_built a) as [x|], (year_built b) as [y|]; simpl;
    cases_Z.
Qed.

End Comparator.

(* ===================================================================== *)
(** ** Pages *)
(* ===================================================================== *)

Section Pages.

Lemma ceil_div_pos (n : Z) (p : positive) :
  JS.ceil_div n (Z.pos p) = - ((- n) / Z.pos p).
Proof.
  unfold JS.ceil_div, Qceiling, Qfloor, Qdiv, Qmult, Qinv, inject_Z, Qopp.
  simpl. now rewrite Z.mul_1_r.
Qed.

(** [ceil_div n d] is the least integer whose multiple by [d] reaches [n]. *)
Lemma ceil_div_spec (n d : Z) :
  0 < d -> n <= JS.ceil_div n d * d /\ (JS.ceil_div n d - 1) * d < n.
Proof.
  intros Hd. destruct d as [|p|p]; try lia. rewrite ceil_div_pos.
  pose proof (Z_div_mod_eq_full (- n) (Z.pos p)) as E.
  pose proof (Z.mod_pos_bound (- n) (Z.pos p) Hd) as B.
  split; nia.
Qed.

Lemma ceil_div_least (n d k : Z) :
  0 < d -> n <= k * d -> JS.ceil_div n d <= k.
Proof.
  intros Hd Hk. destruct (ceil_div_spec n d Hd) as [_ H]. nia.
Qed.

Lemma firstn_plus {A : Type} (a b : nat) (l : list A) :
  firstn (a + b) l = firstn a l ++ firstn b (skipn a l).
Proof.
  revert l. induction a as [|a IH]; intros l; [reflexivity|].
  destruct l as [|x l]; simpl.
  - now rewrite firstn_nil.
  - now rewrite IH.
Qed.

(** For a page number from [1] on, the slice is the run of (at most)
    [pageSize] rows that starts at row [(page - 1) * pageSize]. *)
Lemma paginatedData_chunk (l : list Ship) (p : Z) :
  1 <= p ->
  paginatedData l p
  = firstn 10 (skipn (Z.to_nat ((p - 1) * pageSize)) l).
Proof.
  intros Hp. unfold paginatedData, JS.slice, pageSize.
  set (len := Z.of_nat (List.length l)).
  destruct (Z.ltb_spec ((p - 1) * 10) 0) as [?|_]; [lia|].
  destruct (Z.ltb_spec (p * 10) 0) as [?|_]; [lia|].
  destruct (Z_le_gt_dec len ((p - 1) * 10)) as [Hge|Hlt].
  - rewrite Z.min_r by lia. rewrite Z.min_r by lia.
    rewrite Z.sub_diag.
    rewrite (skipn_all2 (n := Z.to_nat ((p - 1) * 10)))
      by (unfold len in Hge; lia).
    now rewrite firstn_nil.
  - rewrite (Z.min_l ((p - 1) * 10)) by lia.
    destruct (Z_le_gt_dec (p * 10) len) as [Hin|Hout].
    + rewrite Z.min_l by lia. f_equal. lia.
    + rewrite Z.min_r by lia.
      assert (Hl : List.length (skipn (Z.to_nat ((p - 1) * 10)) l)
                   = Z.to_nat (len - (p - 1) * 10)).
      { rewrite length_skipn. unfold len. lia. }
      rewrite firstn_all2 by (rewrite Hl; lia).
      rewrite firstn_all2 by (rewrite Hl; lia). reflexivity.
Qed.

Lemma chunks_concat {A : Type} (l : list A) (n : nat) :
  concat (List.map (fun k => firstn 10 (skipn (10 * k) l)) (seq 0 n))
  = firstn (10 * n) l.
Proof.
  induction n as [|n IH]; [reflexivity|].
  rewrite seq_S, map_app, concat_app, IH. simpl concat.
  rewrite app_nil_r.
  replace (10 * S n)%nat with (10 * n + 10)%nat by lia.
  now rewrite firstn_plus.
Qed.

Lemma pages_concat (l : list Ship) (n : Z) :
  concat (List.map (paginatedData l) (page_numbers n))
  = firstn (10 * Z.to_nat n) l.
Proof.
  unfold page_numbers. rewrite <- chunks_concat.
  rewrite <- seq_shift, !List.map_map. f_equal.
  apply List.map_ext. intros k.
  rewrite paginatedData_chunk by lia. unfold pageSize.
  do 2 f_equal. lia.
Qed.

End Pages.

(* ===================================================================== *)
(** ** The store *)
(* ===================================================================== *)

Section StoreFacts.

Implicit Types h : gmap nat (list Ship).

Lemma fresh_unused h : h !! fresh (dom h) = None.
Proof. apply not_elem_of_dom, is_fresh. Qed.

(** The run of [filteredData] allocates one array, which holds the
    filtered and sorted rows, and touches nothing else. *)
Lemma filteredData_run h (ships_ : nat) (C : list Ship) (search_ : JS.str)
    (sortBy_ : option SortableField) (reverse : bool) :
  h !! ships_ = Some C ->
  Store.filteredData ships_ search_ sortBy_ reverse h
  = (fresh (dom h),
     <[fresh (dom h) := Table.filteredData C search_ sortBy_ reverse]> h).
Proof.
  intros Hs.
  unfold Store.filteredData, Store.array_filter, Store.array_sort,
    Store.bind, Store.read, Store.write, Store.alloc, Store.ret,
    Table.filteredData.
  rewrite Hs. simpl. destruct sortBy_ as [key|]; [|reflexivity].
  rewrite lookup_insert_eq. simpl. now rewrite insert_insert_eq.
Qed.

Lemma derive_run h (ships_ : nat) (C : list Ship) (search_ : JS.str)
    (sortBy_ : option SortableField) (reverse : bool) (page : Z) :
  h !! ships_ = Some C ->
  let filtered := Table.filteredData C search_ sortBy_ reverse in
  let h1 := <[fresh (dom h) := filtered]> h in
  Store.derive ships_ search_ sortBy_ reverse page h
  = ((fresh (dom h1), totalPages filtered),
     <[fresh (dom h1) := paginatedData filtered page]> h1).
Proof.
  intros Hs filtered h1. unfold Store.derive, Store.bind.
  rewrite (filteredData_run h ships_ C) by assumption.
  fold filtered. fold h1.
  unfold Store.array_length, Store.array_slice, Store.bind, Store.read,
    Store.alloc, Store.ret.
  subst h1. rewrite !lookup_insert_eq. reflexivity.
Qed.

End StoreFacts.

(* ===================================================================== *)
(** ** The derived collection *)
(* ===================================================================== *)

Section Derived.

Lemma filter_matches_empty (C : list Ship) :
  List.filter (matches []) C = C.
Proof.
  induction C as [|r C IH]; simpl; [reflexivity|].
  now rewrite matches_empty, IH.
Qed.

Lemma filteredData_perm (C : list Ship) (s : JS.str)
    (key : option SortableField) (reverse : bool) :
  Permutation (Table.filteredData C s key reverse)
              (List.filter (matches s) C).
Proof.
  unfold Table.filteredData. destruct key; [apply sort_perm | reflexivity].
Qed.

Lemma filteredData_In (C : list Ship) (s : JS.str)
    (key : option SortableField) (reverse : bool) (r : Ship) :
  In r (Table.filteredData C s key reverse)
  <-> In r C /\ matches s r = true.
Proof.
  rewrite <- List.filter_In. split; apply Permutation_in;
    [|symmetry]; apply filteredData_perm.
Qed.

Lemma before_filter (p : Ship -> bool) (a b : Ship) (l : list Ship) :
  before a b l -> p a = true -> p b = true ->
  before a b (List.filter p l).
Proof.
  intros [l1 [l2 [l3 E]]] Ha Hb. subst l.
  exists (List.filter p l1), (List.filter p l2), (List.filter p l3).
  rewrite List.filter_app. simpl. rewrite Ha, List.filter_app. simpl.
  now rewrite Hb.
Qed.

Lemma filter_eq_cons (p : Ship -> bool) (l : list Ship) (a : Ship)
    (w : list Ship) :
  List.filter p l = a :: w ->
  exists l1 l2, l = l1 ++ a :: l2 /\ List.filter p l2 = w.
Proof.
  induction l as [|x l IH]; simpl; [discriminate|].
  destruct (p x).
  - intros H. inversion H; subst. now exists [], l.
  - intros H. destruct (IH H) as [l1 [l2 [E Hw]]].
    exists (x :: l1), l2. now rewrite E.
Qed.

Lemma filter_eq_app (p : Ship -> bool) (l u w : list Ship) :
  List.filter p l = u ++ w ->
  exists l1 l2, l = l1 ++ l2 /\ List.filter p l2 = w.
Proof.
  revert l. induction u as [|a u IH]; intros l H.
  - now exists [], l.
  - simpl in H. destruct (filter_eq_cons p l a _ H) as [l1 [l2 [E Hw]]].
    destruct (IH l2 Hw) as [m1 [m2 [E2 Hm]]].
    exists (l1 ++ a :: m1), m2. rewrite E, E2.
    now rewrite <- app_assoc.
Qed.

Lemma before_of_filter (p : Ship -> bool) (a b : Ship) (l : list Ship) :
  before a b (List.filter p l) -> before a b l.
Proof.
  intros [u1 [u2 [u3 E]]].
  destruct (filter_eq_app p l u1 _ E) as [l1 [l2 [E1 H1]]].
  destruct (filter_eq_cons p l2 a _ H1) as [m1 [m2 [E2 H2]]].
  destruct (filter_eq_app p m2 u2 _ H2) as [n1 [n2 [E3 H3]]].
  destruct (filter_eq_cons p n2 b _ H3) as [k1 [k2 [E4 _]]].
  exists (l1 ++ m1), (n1 ++ k1), k2. subst.
  now rewrite <- !app_assoc.
Qed.

End Derived.

(* ===================================================================== *)
(** ** The properties of the list pipeline *)
(* ===================================================================== *)

(** C1, as the code has it.  The filter of the list screen keeps a record
    exactly when the lowercase form of its ship name holds the lowercase
    form of the search string as a run of adjacent code units.  For a ship
    name and a search string written in ASCII that is: exactly when the name
    contains the search string up to the case of the letters.  The unsorted
    output is the input filtered by that test (so the kept records stay in
    their order), a record is in the output under any sort setting exactly
    when it is in the collection and passes the test, and the empty search
    string returns the collection itself. *)
Theorem C1_filter_by_lowercase_name (C : list Ship) (s : JS.str) :
  (forall r,
      matches s r = true
      <-> exists pre post,
            JS.toLowerCase (ship_name r) = pre ++ JS.toLowerCase s ++ post)
  /\ (forall r,
        ascii_only (ship_name r) -> ascii_only s ->
        (matches s r = true <-> contains_nocase (ship_name r) s))
  /\ (forall reverse,
        Table.filteredData C s None reverse = List.filter (matches s) C)
  /\ (forall key reverse r,
        In r (Table.filteredData C s key reverse)
        <-> In r C /\ matches s r = true)
  /\ (forall reverse, Table.filteredData C "" None reverse = C).
Proof.
  split; [|split; [|split; [|split]]].
  - intros r. apply matches_includes.
  - intros r Hn Hs. unfold matches. now apply contains_nocase_ascii.
  - reflexivity.
  - intros key reverse r. apply filteredData_In.
  - intros reverse. apply filter_matches_empty.
Qed.

Lemma C1_filter_by_lowercase_name_witness :
  matches "LPH" alpha = true <-> contains_nocase (ship_name alpha) "LPH".
Proof.
  apply (C1_filter_by_lowercase_name [alpha] "LPH").
  - apply ascii_only_checked. reflexivity.
  - apply ascii_only_checked. reflexivity.
Defined.

(** C1, as the claim words it, fails: the name of capital alpha and capital
    sigma contains the search string capital sigma as it stands, but its
    lowercase form ends in the final sigma, which is not the lowercase form
    of the search string, and the filter drops the record. *)
Lemma C1_final_sigma_is_not_found :
  ~ (forall (C : list Ship) (s : JS.str) (r : Ship),
        In r (Table.filteredData C s None false)
        <-> In r C /\ contains_nocase (ship_name r) s).
Proof.
  intros H.
  destruct (H [alpha_sigma] [0x3A3] alpha_sigma) as [_ Hkept].
  assert (Hin : In alpha_sigma
                  (Table.filteredData [alpha_sigma] [0x3A3] None false)).
  { apply Hkept. split; [now left|].
    exists [0x391], [0x3A3], []. split; [reflexivity|].
    constructor; [now left | constructor]. }
  vm_compute in Hin. exact Hin.
Qed.

(** C2.  With the page size 10, the number of pages is the ceiling of the
    number of rows over 10 (the least integer whose tenfold reaches the
    number of rows); page [p], from 1 on, holds the rows of indices
    [(p-1)*10 .. p*10 - 1] of the filtered and sorted collection and nothing
    else; and the pages [1 .. totalPages], one after the other, are the
    filtered and sorted collection, each row once. *)
Theorem C2_pages_partition (C : list Ship) (s : JS.str)
    (key : option SortableField) (reverse : bool) :
  let rows := Table.filteredData C s key reverse in
  let N := Z.of_nat (List.length rows) in
  (N <= totalPages rows * pageSize /\ (totalPages rows - 1) * pageSize < N)
  /\ (forall k, N <= k * pageSize -> totalPages rows <= k)
  /\ (forall p i, 1 <= p ->
        nth_error (paginatedData rows p) i
        = if Nat.ltb i 10
          then nth_error rows (Z.to_nat ((p - 1) * pageSize) + i)
          else None)
  /\ concat (List.map (paginatedData rows) (page_numbers (totalPages rows)))
     = rows.
Proof.
  intros rows N.
  assert (Hd : 0 < pageSize) by (unfold pageSize; lia).
  destruct (ceil_div_spec N pageSize Hd) as [Hup Hlow].
  change (JS.ceil_div N pageSize) with (totalPages rows) in Hup, Hlow.
  split; [now split|]. split; [|split].
  - intros k Hk. now apply (ceil_div_least N pageSize k).
  - intros p i Hp. rewrite paginatedData_chunk by assumption.
    rewrite nth_error_firstn. destruct (Nat.ltb i 10); [|reflexivity].
    apply nth_error_skipn.
  - rewrite pages_concat. apply firstn_all2.
    unfold N, pageSize in Hup. lia.
Qed.

Lemma C2_pages_partition_witness :
  1 <= 2
  /\ nth_error (paginatedData (Table.filteredData [alpha; beta; orion]
                                 "" (Some Key_missions) false) 2) 0%nat
     = None.
Proof.
  split; [lia|].
  pose proof (C2_pages_partition [alpha; beta; orion] ""
                (Some Key_missions) false) as H.
  cbv zeta in H. destruct H as [_ [_ [H _]]].
  rewrite (H 2 0%nat) by lia. reflexivity.
Defined.

(** C3.  The comparator reads the value of the selected key off each
    record, the number of missions for the key "missions" and the stored
    field otherwise; in the ascending direction its result is [0] for
    strictly equal values, [1] when the first value is the greater and [-1]
    otherwise, and the direction flag negates that result.  Sorting by the
    mission count puts the counts in ascending order, in descending order
    under the flag; in particular three records with 3, 0 and 1 missions come
    out in the order of the counts 0, 1, 3. *)
Theorem C3_sort_by_key :
  (forall a,
      sortValue Key_missions a = JS.VNum (Z.of_nat (List.length (missions a)))
      /\ sortValue Key_ship_name a = JS.VStr (ship_name a)
      /\ sortValue Key_ship_type a = JS.VStr (ship_type a)
      /\ (forall y, year_built a = Some y ->
                    sortValue Key_year_built a = JS.VNum y))
  /\ (forall key a b,
        comparefn key false a b
        = if JS.strict_eq (sortValue key a) (sortValue key b) then 0
          else if JS.gt (sortValue key a) (sortValue key b) then 1 else -1)
  /\ (forall key a b, comparefn key true a b = - comparefn key false a b)
  /\ (forall C s,
        StronglySorted (rank_le mission_count)
          (Table.filteredData C s (Some Key_missions) false))
  /\ (forall C s,
        StronglySorted (rank_le (fun a => - mission_count a))
          (Table.filteredData C s (Some Key_missions) true))
  /\ (forall x y z,
        List.length (missions x) = 3%nat ->
        List.length (missions y) = 0%nat ->
        List.length (missions z) = 1%nat ->
        Table.filteredData [x; y; z] "" (Some Key_missions) false
        = [y; z; x]).
Proof.
  split; [|split; [|split; [|split; [|split]]]].
  - intros a. split; [reflexivity|]. split; [reflexivity|].
    split; [reflexivity|]. intros y Hy. simpl. now rewrite Hy.
  - reflexivity.
  - intros key a b. unfold comparefn. cbv zeta.
    destruct (JS.strict_eq (sortValue key a) (sortValue key b)),
      (JS.gt (sortValue key a) (sortValue key b)); reflexivity.
  - intros C s. apply sort_sorted. exact comparefn_missions_asc.
  - intros C s. apply sort_sorted. exact comparefn_missions_desc.
  - intros x y z Hx Hy Hz. unfold Table.filteredData.
    rewrite filter_matches_empty. simpl.
    rewrite (comparefn_missions_asc y z). unfold mission_count at 1 2.
    rewrite Hy, Hz. simpl.
    rewrite (comparefn_missions_asc x y). unfold mission_count at 1 2.
    rewrite Hx, Hy. simpl.
    rewrite (comparefn_missions_asc x z). unfold mission_count at 1 2.
    rewrite Hx, Hz. reflexivity.
Qed.

Lemma C3_sort_by_key_witness :
  Table.filteredData [alpha; beta; orion] "" (Some Key_missions) false
  = [beta; orion; alpha].
Proof.
  pose proof C3_sort_by_key as H.
  destruct H as [_ [_ [_ [_ [_ H]]]]].
  apply (H alpha beta orion); reflexivity.
Defined.

(** Where the comparator is consistent the order of the records with a
    given value is the order of the input: under the keys "ship_name",
    "ship_type" and "missions", and under "year_built" when the collection
    does not hold both a record without a year and a record of year 0. *)
Lemma sort_keeps_ties_in_order (C : list Ship) (s : JS.str)
    (key : SortableField) (reverse : bool) (v : JS.value) :
  key <> Key_year_built
  \/ ~ (exists a b, In a C /\ In b C
                   /\ year_built a = None /\ year_built b = Some 0) ->
  List.filter (fun r => JS.strict_eq (sortValue key r) v)
    (Table.filteredData C s (Some key) reverse)
  = List.filter (fun r => JS.strict_eq (sortValue key r) v)
      (Table.filteredData C s None reverse).
Proof.
  intros _. unfold Table.filteredData. apply sort_filter.
  intros x y. apply comparefn_ties.
Qed.

(** C4, at two records without a year and two of the year 0, in turn.  The
    records 1 and 3 have strictly equal sort values and so have 2 and 4,
    but between a record without a year and one of the year 0 the
    comparator answers -1 in both orders.  Each record of the array so
    compares below the one before it, as in a strictly descending run, and
    in whatever order the four are arranged some record stands before one
    that the comparator puts before it: the comparator fixes no order, and
    no stable one, for the sort to return. *)
Theorem C4_comparator_contradicts_itself :
  let cmp := comparefn Key_year_built false in
  let input := [no_year_1; year_zero_2; no_year_3; year_zero_4] in
  JS.strict_eq (sortValue Key_year_built no_year_1)
    (sortValue Key_year_built no_year_3) = true
  /\ JS.strict_eq (sortValue Key_year_built year_zero_2)
       (sortValue Key_year_built year_zero_4) = true
  /\ (cmp no_year_1 year_zero_2 = -1 /\ cmp year_zero_2 no_year_1 = -1)
  /\ (cmp year_zero_2 no_year_1 < 0 /\ cmp no_year_3 year_zero_2 < 0
      /\ cmp year_zero_4 no_year_3 < 0)
  /\ (forall arranged,
        Permutation arranged input ->
        exists x y, before x y arranged /\ cmp y x < 0).
Proof.
  intros cmp input.
  split; [reflexivity|]. split; [reflexivity|].
  split; [now split|]. split; [repeat split|].
  intros arranged Hp.
  assert (Hkind : forall r, In r input ->
            year_built r = None \/ year_built r = Some 0).
  { intros r [<- | [<- | [<- | [<- | []]]]]; simpl; auto. }
  assert (Hcmp : forall x y,
            year_built x = None -> year_built y = Some 0 ->
            cmp y x < 0 /\ cmp x y < 0).
  { intros x y Hx Hy. unfold cmp, comparefn, sortValue. rewrite Hx, Hy.
    simpl. lia. }
  destruct arranged as [|x rest].
  - apply Permutation_nil in Hp. discriminate.
  - assert (Hx : In x input) by (apply (Permutation_in x Hp); now left).
    assert (Hother : forall y, In y input -> y <> x -> In y rest).
    { intros y Hy Hne.
      apply (Permutation_in y (Permutation_sym Hp)) in Hy.
      destruct Hy as [E | Hy]; [congruence | exact Hy]. }
    destruct (Hkind x Hx) as [Hnone | Hzero].
    + assert (Hy : In year_zero_2 rest).
      { apply Hother; [simpl; auto|]. intros E. rewrite <- E in Hnone.
        discriminate. }
      apply in_split in Hy. destruct Hy as [l2 [l3 E]].
      exists x, year_zero_2. split.
      * exists [], l2, l3. simpl. now rewrite E.
      * now apply (Hcmp x year_zero_2).
    + assert (Hy : In no_year_1 rest).
      { apply Hother; [simpl; auto|]. intros E. rewrite <- E in Hzero.
        discriminate. }
      apply in_split in Hy. destruct Hy as [l2 [l3 E]].
      exists x, no_year_1. split.
      * exists [], l2, l3. simpl. now rewrite E.
      * now apply (Hcmp no_year_1 x).
Qed.

Lemma C4_comparator_contradicts_itself_witness :
  exists x y,
    before x y [year_zero_4; no_year_3; year_zero_2; no_year_1]
    /\ comparefn Key_year_built false y x < 0.
Proof.
  apply C4_comparator_contradicts_itself.
  apply Permutation_sym.
  apply (Permutation_rev [no_year_1; year_zero_2; no_year_3; year_zero_4]).
Defined.

(** C5, as the code has it.  A click on the header of the selected column
    flips the direction; a click on another column selects it in the
    ascending direction; two clicks on the selected column bring the sort
    state, and with it the displayed collection, back to what it was before
    them, which is the ascending order for the key when the direction was
    ascending before the two clicks. *)
Theorem C5_setSorting_toggles (st : State) (k : SortableField) :
  (sortBy st = Some k ->
     sortBy (click k st) = Some k
     /\ reverseSort (click k st) = negb (reverseSort st))
  /\ (sortBy st <> Some k ->
        sortBy (click k st) = Some k /\ reverseSort (click k st) = false)
  /\ (sortBy st = Some k ->
        click k (click k st) = st
        /\ displayed (click k (click k st)) = displayed st)
  /\ (sortBy st = Some k -> reverseSort st = false ->
        displayed (click k (click k st))
        = Table.filteredData (ships st) (search st) (Some k) false).
Proof.
  assert (Hsame : forall f, field_eqb f f = true) by (now intros []).
  assert (Hdiff : forall f g, field_eqb f g = true -> f = g)
    by (intros [] []; simpl; congruence).
  assert (Htwice : sortBy st = Some k -> click k (click k st) = st).
  { intros H. destruct st as [sh lo se so re sel dr cu]. simpl in H.
    subst so. unfold click, setSorting, run. simpl.
    rewrite !Hsame. now rewrite negb_involutive. }
  split; [|split; [|split]].
  - intros H. unfold click, setSorting, run. simpl.
    rewrite H. simpl. now rewrite Hsame.
  - intros H. unfold click, setSorting, run. simpl. split; [reflexivity|].
    destruct (sortBy st) as [f|] eqn:E; simpl; [|reflexivity].
    destruct (field_eqb k f) eqn:Ek; [|reflexivity].
    apply Hdiff in Ek. congruence.
  - intros H. split; [now apply Htwice | now rewrite Htwice].
  - intros H Hr. rewrite Htwice by assumption. unfold displayed.
    now rewrite H, Hr.
Qed.

Lemma C5_setSorting_toggles_witness :
  displayed (click Key_ship_name (click Key_ship_name (sorted_by_name false)))
  = [alpha; beta; orion].
Proof.
  pose proof (C5_setSorting_toggles (sorted_by_name false) Key_ship_name)
    as [_ [_ [_ H]]].
  rewrite H; reflexivity.
Defined.

(** C5, as the claim words it, fails: from the descending direction, two
    clicks on the selected column leave the collection in descending order,
    not in the ascending order for the key. *)
Lemma C5_twice_not_always_ascending :
  ~ (forall st k,
        sortBy st = Some k ->
        displayed (click k (click k st))
        = Table.filteredData (ships st) (search st) (Some k) false).
Proof.
  intros H. specialize (H (sorted_by_name true) Key_ship_name eq_refl).
  vm_compute in H. discriminate H.
Qed.

(** C6.  A change of the search string sets the search cell to the new
    string and the current page to 1; a click on a column header leaves the
    current page, the collection and the search string as they are, and the
    displayed collection holds the same records as before, reordered. *)
Theorem C6_page_on_search_and_sort (st : State) :
  (forall v,
      currentPage (run (onSearchChange v st) st) = 1
      /\ search (run (onSearchChange v st) st) = v)
  /\ (forall k,
        currentPage (click k st) = currentPage st
        /\ ships (click k st) = ships st
        /\ search (click k st) = search st
        /\ Permutation (displayed (click k st)) (displayed st)).
Proof.
  split.
  - intros v. split; reflexivity.
  - intros k. repeat split. unfold displayed.
    change (ships (click k st)) with (ships st).
    change (search (click k st)) with (search st).
    rewrite !filteredData_perm. reflexivity.
Qed.

(** C7.  Deriving the view from a store in which the fetched collection
    [C] sits under the reference [ships_] leaves [C] under that reference and
    every array the store already held as it was: the filter and the slice
    write to arrays of their own and the sort reorders the array the filter
    made.  The rows of the page and the number of pages are the values of
    two functions of the collection, the search string, the sort key, the
    direction and the page, and of nothing else. *)
Theorem C7_derivation_is_pure (h : gmap nat (list Ship)) (ships_ : nat)
    (C : list Ship) (search_ : JS.str) (sortBy_ : option SortableField)
    (reverse : bool) (page : Z) :
  h !! ships_ = Some C ->
  let out := Store.derive ships_ search_ sortBy_ reverse page h in
  let rows := fst (fst out) in
  let total := snd (fst out) in
  let h' := snd out in
  h' !! ships_ = Some C
  /\ (forall r, is_Some (h !! r) -> h' !! r = h !! r)
  /\ h' !! rows
     = Some (paginatedData (Table.filteredData C search_ sortBy_ reverse) page)
  /\ total = totalPages (Table.filteredData C search_ sortBy_ reverse).
Proof.
  intros Hs out rows total h'. subst rows total h' out.
  rewrite (derive_run h ships_ C) by assumption. simpl.
  set (filtered := Table.filteredData C search_ sortBy_ reverse).
  set (h1 := <[fresh (dom h) := filtered]> h).
  assert (Hkept : forall r, is_Some (h !! r) ->
            <[fresh (dom h1) := paginatedData filtered page]> h1 !! r
            = h !! r).
  { intros r Hr.
    assert (Hr1 : fresh (dom h) <> r).
    { intros E. rewrite <- E, fresh_unused in Hr. now destruct Hr. }
    assert (H1 : h1 !! r = h !! r) by (now apply lookup_insert_ne).
    assert (Hr2 : fresh (dom h1) <> r).
    { intros E. rewrite <- H1, <- E, fresh_unused in Hr. now destruct Hr. }
    now rewrite lookup_insert_ne. }
  split; [|split; [|split]].
  - rewrite Hkept by (rewrite Hs; eauto). exact Hs.
  - exact Hkept.
  - apply lookup_insert_eq.
  - reflexivity.
Qed.

Lemma C7_derivation_is_pure_witness :
  snd (Store.derive 0%nat "a" (Some Key_missions) false 1
         {[ 0%nat := [alpha; beta; orion] ]}) !! 0%nat
  = Some [alpha; beta; orion].
Proof.
  apply (C7_derivation_is_pure {[ 0%nat := [alpha; beta; orion] ]} 0%nat
           [alpha; beta; orion] "a" (Some Key_missions) false 1).
  reflexivity.
Defined.



(* ===================================================================== *)
(** ** The fetch lifecycle *)
(* ===================================================================== *)

(** A rejected request and an unparsable body, met by a detail screen that
    holds no ship yet: the error is logged, the loading flag is cleared and
    the screen shows "Ship not found". *)
Lemma detail_failure_shows_not_found (r : DetailPage.response) :
  r = DetailPage.Rejected \/ r = DetailPage.Unparsable ->
  let acts := DetailPage.fetchShip_resume r in
  let st := DetailPage.run acts DetailPage.initial in
  DetailPage.console acts = ["Error fetching ship:"]
  /\ DetailPage.loading st = false
  /\ DetailPage.render st = DetailPage.ShipNotFound.
Proof. intros [-> | ->]; repeat split. Qed.

(** A body that is [null]: "Ship not found" as well. *)
Lemma detail_null_body_shows_not_found :
  DetailPage.render
    (DetailPage.run (DetailPage.fetchShip_resume
                       (DetailPage.Body DetailPage.JNull))
       DetailPage.initial)
  = DetailPage.ShipNotFound.
Proof. reflexivity. Qed.

(** The failure of a later request, for another identifier, met by a
    detail screen that already shows a ship: the screen keeps showing it. *)
Lemma detail_failure_keeps_previous_ship (st : DetailPage.State) :
  DetailPage.loading st = false ->
  DetailPage.render
    (DetailPage.run (DetailPage.fetchShip_resume DetailPage.Rejected) st)
  = DetailPage.render st.
Proof.
  intros H. destruct st as [s l]. simpl in H. subst l. reflexivity.
Qed.

Lemma filteredData_nil (s : JS.str) (key : option SortableField)
    (reverse : bool) :
  Table.filteredData [] s key reverse = [].
Proof. now destruct key. Qed.

(** A rejected request met by the list screen, which holds no ship when its
    only request runs: the error is logged, the loading flag is cleared and
    the table shows its empty state. *)
Lemma table_failure_shows_empty_table (st : State) :
  ships st = [] ->
  let acts := fetchShips_start ++ fetchShips_resume Rejected in
  console acts = ["Failed to fetch ships"]
  /\ loading (run acts st) = false
  /\ Table.render (run acts st) = NoShipsFound.
Proof.
  intros H. destruct st as [sh lo se so re sel dr cu]. simpl in H. subst sh.
  repeat split. unfold Table.render. simpl.
  rewrite filteredData_nil. unfold paginatedData, JS.slice. simpl.
  now rewrite skipn_nil, firstn_nil.
Qed.

(** C8, at a reply whose body is an error object and not a ship: the body
    is stored as the ship, the loading flag is cleared, the test [!ship]
    lets the object through, and the rendering of the details throws at
    [ship.roles.map] instead of showing "Ship not found". *)
Theorem C8_error_body_is_rendered_as_ship :
  let st := DetailPage.run
              (DetailPage.fetchShip_resume (DetailPage.Body error_body))
              DetailPage.initial in
  DetailPage.ship st = error_body
  /\ DetailPage.loading st = false
  /\ DetailPage.truthy (DetailPage.ship st) = true
  /\ DetailPage.roles_ok (DetailPage.ship st) = false
  /\ DetailPage.render st = DetailPage.Throws
  /\ DetailPage.render st <> DetailPage.ShipNotFound.
Proof. repeat split. discriminate. Qed.

(** C9, as the code has it.  When the fetch of a screen settles, the rest
    of [fetchShips] and of [fetchShip] calls the state setters whether the
    screen is active or not: the calls are the same for an instance and for
    the instance deactivated, a result that resolved is handed to [setShips]
    or [setShip], and [setLoading (false)] is called in every case. *)
Theorem C9_settled_fetch_calls_setters :
  (forall (i : Lifecycle.instance Table.State) r,
      Lifecycle.table_settled (Lifecycle.deactivate i) r
      = Lifecycle.table_settled i r
      /\ In (SetLoading false) (Lifecycle.table_settled i r))
  /\ (forall (i : Lifecycle.instance Table.State) data,
        Lifecycle.table_settled (Lifecycle.deactivate i) (Resolved data)
        = [SetShips data; SetLoading false])
  /\ (forall (i : Lifecycle.instance DetailPage.State) r,
        Lifecycle.detail_settled (Lifecycle.deactivate i) r
        = Lifecycle.detail_settled i r
        /\ In (DetailPage.SetLoading false) (Lifecycle.detail_settled i r))
  /\ (forall (i : Lifecycle.instance DetailPage.State) data,
        Lifecycle.detail_settled (Lifecycle.deactivate i)
          (DetailPage.Body data)
        = [DetailPage.SetShip data; DetailPage.SetLoading false]).
Proof.
  split; [|split; [|split]].
  - intros i r. split; [reflexivity|]. destruct r; simpl; auto.
  - reflexivity.
  - intros i r. split; [reflexivity|]. destruct r; simpl; auto.
  - reflexivity.
Qed.

(** C9, as the claim words it, fails: no flag suppresses the write, and a
    deactivated list screen whose fetch resolves is handed the result. *)
Lemma C9_no_guard_suppresses_the_write :
  ~ (forall (i : Lifecycle.instance Table.State) r,
        Lifecycle.mounted i = false ->
        List.filter is_setter (Lifecycle.table_settled i r) = []).
Proof.
  intros H.
  specialize (H (Lifecycle.deactivate
                   {| Lifecycle.mounted := true;
                      Lifecycle.cells := Table.initial |})
                (Resolved [alpha]) eq_refl).
  discriminate H.
Qed.

(* ===================================================================== *)
(** ** The scenarios of the specification *)
(* ===================================================================== *)

Example search_a_keeps_alpha_and_beta :
  Table.filteredData [alpha; beta; orion] "a" None false = [alpha; beta].
Proof. reflexivity. Qed.

Example search_is_case_insensitive :
  Table.filteredData [alpha; beta; orion] "ORI" None false = [orion].
Proof. reflexivity. Qed.

Example search_beyond_ascii :
  Table.filteredData [vessel 5 [0xC9; 0x63; 0x6F; 0x6C; 0x65] None 0]
    [0xE9] None false
  = [vessel 5 [0xC9; 0x63; 0x6F; 0x6C; 0x65] None 0].
Proof. vm_compute. reflexivity. Qed.

Example capital_sigma_at_the_end :
  JS.toLowerCase [0x391; 0x3A3] = [0x3B1; 0x3C2]
  /\ JS.toLowerCase [0x3A3] = [0x3C3]
  /\ Table.filteredData [alpha_sigma] [0x3A3] None false = [].
Proof. vm_compute. repeat split. Qed.

Example twelve_records_two_pages :
  let rows :=
    List.map (fun nm : string => vessel 0 nm None 0)
      ["Alpha"; "Bravo"; "Charlie"; "Delta"; "Echo"; "Foxtrot"; "Golf";
       "Hotel"; "India"; "Juliett"; "Kilo"; "Lima"] in
  totalPages (Table.filteredData rows "" None false) = 2
  /\ paginatedData (Table.filteredData rows "" None false) 1 = firstn 10 rows
  /\ paginatedData (Table.filteredData rows "" None false) 2 = skipn 10 rows.
Proof. repeat split. Qed.

Example missing_year_first :
  Table.filteredData [alpha; beta; orion] "" (Some Key_year_built) false
  = [beta; orion; alpha].
Proof. reflexivity. Qed.

(* ===================================================================== *)
(** ** The order of the sorted table *)
(* ===================================================================== *)

Section Ordered.

Context {A : Type}.
Variable comparefn : A -> A -> Z.
Variable R : A -> A -> Prop.
Hypothesis R_trans : forall a b c, R a b -> R b c -> R a c.
Hypothesis after_positive :
  forall a b, Z.gtb (comparefn a b) 0 = true -> R b a.
Hypothesis before_otherwise :
  forall a b, Z.gtb (comparefn a b) 0 = false -> R a b.

Lemma sort_insert_ordered (x : A) (l : list A) :
  StronglySorted R l -> StronglySorted R (JS.sort_insert comparefn x l).
Proof.
  induction 1 as [|y l Hl IH Hy]; simpl.
  - repeat constructor.
  - destruct (Z.gtb (comparefn x y) 0) eqn:Hgt.
    + constructor; [assumption|]. rewrite sort_insert_perm.
      constructor; [now apply after_positive | assumption].
    + constructor; [now constructor|].
      constructor; [now apply before_otherwise|].
      eapply Forall_impl; [exact Hy|].
      intros a Ha. apply (R_trans x y a); [now apply before_otherwise|exact Ha].
Qed.

Lemma sort_ordered (l : list A) : StronglySorted R (JS.sort comparefn l).
Proof.
  induction l as [|x l IH]; simpl; [constructor|].
  now apply sort_insert_ordered.
Qed.

End Ordered.

Section StringOrder.

Lemma str_eqb_spec (s t : JS.str) : reflect (s = t) (JS.str_eqb s t).
Proof.
  destruct (JS.str_eqb s t) eqn:E; constructor.
  - now apply str_eqb_eq.
  - intros H. apply str_eqb_eq in H. congruence.
Qed.

Lemma compare_refl (s : JS.str) : JS.str_compare s s = Eq.
Proof.
  induction s as [|a s IH]; [reflexivity|]. simpl.
  now rewrite Z.compare_refl.
Qed.

Lemma compare_eq (s t : JS.str) : JS.str_compare s t = Eq -> s = t.
Proof.
  revert t. induction s as [|a s IH]; intros [|b t]; simpl;
    try discriminate; [reflexivity|].
  destruct (Z.compare_spec a b) as [-> | |]; try discriminate.
  intros H. now rewrite (IH t H).
Qed.

Lemma compare_antisym (s t : JS.str) :
  JS.str_compare s t = CompOpp (JS.str_compare t s).
Proof.
  revert t. induction s as [|a s IH]; intros [|b t]; simpl;
    try reflexivity.
  rewrite (Z.compare_antisym a b).
  destruct (Z.compare a b); simpl; [apply IH | reflexivity | reflexivity].
Qed.

Lemma compare_lt_trans (s t u : JS.str) :
  JS.str_compare s t = Lt -> JS.str_compare t u = Lt ->
  JS.str_compare s u = Lt.
Proof.
  revert t u. induction s as [|a s IH]; intros [|b t] [|c u]; simpl;
    try discriminate; try reflexivity.
  destruct (Z.compare_spec a b) as [-> | Hab | Hab]; try discriminate.
  - destruct (Z.compare_spec b c) as [-> | Hbc | Hbc]; try discriminate.
    + apply IH.
    + reflexivity.
  - intros _. destruct (Z.compare_spec b c) as [-> | Hbc | Hbc];
      try discriminate; intros _.
    + destruct (Z.compare_spec a c); [lia | reflexivity | lia].
    + destruct (Z.compare_spec a c); [lia | reflexivity | lia].
Qed.

Lemma leb_refl (s : JS.str) : JS.str_leb s s = true.
Proof. unfold JS.str_leb. now rewrite compare_refl. Qed.

Lemma ltb_leb (s t : JS.str) : JS.str_ltb s t = true -> JS.str_leb s t = true.
Proof.
  unfold JS.str_ltb, JS.str_leb. now destruct (JS.str_compare s t).
Qed.

Lemma not_ltb_leb (s t : JS.str) :
  JS.str_ltb s t = false -> JS.str_leb t s = true.
Proof.
  unfold JS.str_ltb, JS.str_leb. rewrite (compare_antisym s t).
  now destruct (JS.str_compare t s).
Qed.

Lemma leb_trans (s t u : JS.str) :
  JS.str_leb s t = true -> JS.str_leb t u = true -> JS.str_leb s u = true.
Proof.
  unfold JS.str_leb. intros Hst Htu.
  destruct (JS.str_compare s t) eqn:Est; try discriminate;
    destruct (JS.str_compare t u) eqn:Etu; try discriminate.
  - apply compare_eq in Est, Etu. subst. now rewrite compare_refl.
  - apply compare_eq in Est. subst. now rewrite Etu.
  - apply compare_eq in Etu. subst. now rewrite Est.
  - now rewrite (compare_lt_trans s t u Est Etu).
Qed.

(** Two different strings: one of them is below the other. *)
Lemma ltb_total (s t : JS.str) :
  s <> t -> JS.str_ltb s t = negb (JS.str_ltb t s).
Proof.
  intros Hne. unfold JS.str_ltb. rewrite (compare_antisym t s).
  destruct (JS.str_compare s t) eqn:E; try reflexivity.
  apply compare_eq in E. contradiction.
Qed.

End StringOrder.

Section KeyOrder.

Lemma key_le_trans (key : SortableField) (a b c : Ship) :
  key_le key a b -> key_le key b c -> key_le key a c.
Proof.
  destruct key; simpl; try apply leb_trans; lia.
Qed.

(** The comparator on two string values. *)
Lemma comparefn_strings (f : Ship -> JS.str) (key : SortableField)
    (reverse : bool) (a b : Ship) :
  (forall r, sortValue key r = JS.VStr (f r)) ->
  comparefn key reverse a b
  = if JS.str_eqb (f a) (f b) then 0
    else if reverse then (if JS.str_ltb (f b) (f a) then -1 else 1)
         else (if JS.str_ltb (f b) (f a) then 1 else -1).
Proof. intros H. unfold comparefn. now rewrite !H. Qed.

Lemma strings_positive_asc (f : Ship -> JS.str) (key : SortableField)
    (a b : Ship) :
  (forall r, sortValue key r = JS.VStr (f r)) ->
  (Z.gtb (comparefn key false a b) 0 = true -> JS.str_leb (f b) (f a) = true)
  /\ (Z.gtb (comparefn key false a b) 0 = false ->
      JS.str_leb (f a) (f b) = true).
Proof.
  intros H. rewrite (comparefn_strings f key false a b H).
  destruct (str_eqb_spec (f a) (f b)) as [E|E].
  - rewrite E. split; intros _; apply leb_refl.
  - destruct (JS.str_ltb (f b) (f a)) eqn:L; simpl; split;
      try discriminate; intros _.
    + now apply ltb_leb.
    + now apply not_ltb_leb.
Qed.

Lemma strings_positive_desc (f : Ship -> JS.str) (key : SortableField)
    (a b : Ship) :
  (forall r, sortValue key r = JS.VStr (f r)) ->
  (Z.gtb (comparefn key true a b) 0 = true -> JS.str_leb (f a) (f b) = true)
  /\ (Z.gtb (comparefn key true a b) 0 = false ->
      JS.str_leb (f b) (f a) = true).
Proof.
  intros H. rewrite (comparefn_strings f key true a b H).
  destruct (str_eqb_spec (f a) (f b)) as [E|E].
  - rewrite E. split; intros _; apply leb_refl.
  - destruct (JS.str_ltb (f b) (f a)) eqn:L; simpl; split;
      try discriminate; intros _.
    + now apply ltb_leb.
    + now apply not_ltb_leb.
Qed.

Lemma comparefn_year_desc (a b : Ship) :
  (Z.gtb (comparefn Key_year_built true a b) 0 = true ->
   year_rank a <= year_rank b)
  /\ (Z.gtb (comparefn Key_year_built true a b) 0 = false ->
      year_rank b <= year_rank a).
Proof.
  unfold comparefn, year_rank, sortValue, JS.strict_eq, JS.gt.
  destruct (year_built a) as [x|], (year_built b) as [y|]; simpl;
    rewrite ?Z.gtb_ltb;
    repeat match goal with
      | |- context [if Z.eqb ?u ?v then _ else _] =>
          destruct (Z.eqb_spec u v)
      | |- context [if Z.ltb ?u ?v then _ else _] =>
          destruct (Z.ltb_spec u v)
      end; simpl; split; intros; try discriminate; lia.
Qed.

End KeyOrder.

Lemma filteredData_ordered (C : list Ship) (s : JS.str)
    (key : SortableField) :
  StronglySorted (key_le key) (Table.filteredData C s (Some key) false)
  /\ StronglySorted (fun a b => key_le key b a)
       (Table.filteredData C s (Some key) true).
Proof.
  unfold Table.filteredData. split; apply sort_ordered.
  - intros a b c. apply key_le_trans.
  - intros a b. destruct key; simpl.
    + now apply (strings_positive_asc ship_name Key_ship_name).
    + now apply (strings_positive_asc ship_type Key_ship_type).
    + rewrite comparefn_year_asc. lia.
    + rewrite comparefn_missions_asc. lia.
  - intros a b. destruct key; simpl.
    + now apply (strings_positive_asc ship_name Key_ship_name).
    + now apply (strings_positive_asc ship_type Key_ship_type).
    + rewrite comparefn_year_asc. lia.
    + rewrite comparefn_missions_asc. lia.
  - intros a b c Hab Hbc. now apply (key_le_trans key c b a).
  - intros a b. destruct key; simpl.
    + now apply (strings_positive_desc ship_name Key_ship_name).
    + now apply (strings_positive_desc ship_type Key_ship_type).
    + apply comparefn_year_desc.
    + rewrite comparefn_missions_desc. lia.
  - intros a b. destruct key; simpl.
    + now apply (strings_positive_desc ship_name Key_ship_name).
    + now apply (strings_positive_desc ship_type Key_ship_type).
    + apply comparefn_year_desc.
    + rewrite comparefn_missions_desc. lia.
Qed.

(** X1.  Whatever the key, the sorted collection is in order: ascending by
    the key without the flag, descending with it, where strings are
    ordered by their code units and a missing year counts as 0. *)
Theorem X1_sorted_output_is_ordered (C : list Ship) (s : JS.str)
    (key : SortableField) :
  StronglySorted (key_le key) (Table.filteredData C s (Some key) false)
  /\ StronglySorted (fun a b => key_le key b a)
       (Table.filteredData C s (Some key) true).
Proof. exact (filteredData_ordered C s key). Qed.

(** X2.  Sorting keeps the filtered records, each as often as before: the
    sorted collection is a rearrangement of the unsorted one, so the number
    of rows, the number of pages and the presence of the pagination control
    do not depend on the sort key or direction. *)
Theorem X2_sort_keeps_the_rows (C : list Ship) (s : JS.str)
    (key : SortableField) (reverse : bool) :
  let sorted := Table.filteredData C s (Some key) reverse in
  let unsorted := Table.filteredData C s None reverse in
  Permutation sorted unsorted
  /\ List.length sorted = List.length unsorted
  /\ totalPages sorted = totalPages unsorted
  /\ showPagination sorted = showPagination unsorted.
Proof.
  intros sorted unsorted.
  assert (Hp : Permutation sorted unsorted).
  { unfold sorted, unsorted. now rewrite !filteredData_perm. }
  assert (Hl : List.length sorted = List.length unsorted)
    by (now apply Permutation_length).
  unfold totalPages, showPagination. now rewrite Hl.
Qed.

Section Search.

(** A search string written in ASCII that holds another one up to case
    keeps no more than the other keeps. *)
Lemma matches_narrow (s s' : JS.str) (r : Ship) :
  ascii_only s' -> contains_nocase s' s ->
  matches s' r = true -> matches s r = true.
Proof.
  intros Ha Hs Hr. unfold matches in *.
  apply (includes_trans _ (JS.toLowerCase s')); [exact Hr|].
  apply contains_nocase_ascii; [exact Ha | | exact Hs].
  destruct Hs as [pre [mid [post [E H]]]]. rewrite E in Ha.
  apply ascii_only_app in Ha. destruct Ha as [_ Ha].
  apply ascii_only_app in Ha. destruct Ha as [Ha _].
  now apply (eq_nocase_ascii mid s).
Qed.

Lemma filter_filter_narrow (p q : Ship -> bool) (l : list Ship) :
  (forall r, q r = true -> p r = true) ->
  List.filter q (List.filter p l) = List.filter q l.
Proof.
  intros H. induction l as [|x l IH]; [reflexivity|]. simpl.
  destruct (p x) eqn:Hp; simpl.
  - now rewrite IH.
  - destruct (q x) eqn:Hq; [|exact IH].
    apply H in Hq. congruence.
Qed.

Lemma matches_nocase (s s' : JS.str) (r : Ship) :
  eq_nocase s s' -> matches s r = matches s' r.
Proof.
  intros H. unfold matches. now rewrite (toLowerCase_nocase s s' H).
Qed.

End Search.

(** X3.  A longer search narrows the table.  When the search string
    [s'] is written in ASCII and the search string [s] occurs in it up to
    case, every record kept for [s'] is kept for [s], the unsorted result
    for [s'] is the result for [s] filtered again by [s'], and it has no
    more rows. *)
Theorem X3_longer_search_narrows (C : list Ship) (s s' : JS.str) :
  ascii_only s' -> contains_nocase s' s ->
  (forall key reverse r,
      In r (Table.filteredData C s' key reverse) ->
      In r (Table.filteredData C s key reverse))
  /\ (forall reverse,
        Table.filteredData C s' None reverse
        = List.filter (matches s') (Table.filteredData C s None reverse))
  /\ (forall key reverse,
        (List.length (Table.filteredData C s' key reverse)
         <= List.length (Table.filteredData C s key reverse))%nat).
Proof.
  intros Ha Hs.
  assert (Hre : List.filter (matches s') C
                = List.filter (matches s') (List.filter (matches s) C)).
  { symmetry. apply filter_filter_narrow. intros r.
    now apply matches_narrow. }
  split; [|split].
  - intros key reverse r. rewrite !filteredData_In. intros [Hin Hm].
    split; [assumption | now apply (matches_narrow s s')].
  - intros reverse. exact Hre.
  - intros key reverse.
    rewrite (Permutation_length (filteredData_perm C s' key reverse)).
    rewrite (Permutation_length (filteredData_perm C s key reverse)).
    rewrite Hre. apply List.filter_length_le.
Qed.

Lemma X3_longer_search_narrows_witness :
  Table.filteredData [alpha; beta; orion] "AL" None false
  = List.filter (matches "AL")
      (Table.filteredData [alpha; beta; orion] "a" None false).
Proof.
  apply (X3_longer_search_narrows [alpha; beta; orion] "a" "AL").
  - apply ascii_only_checked. reflexivity.
  - exists [], [65], [76]. split; [reflexivity|].
    constructor; [|constructor]. right. left. split; [lia | reflexivity].
Defined.

(** X4.  The case of the letters of the search string does not matter: two
    search strings equal up to case give the same table, under every sort
    setting. *)
Theorem X4_search_case_is_irrelevant (C : list Ship) (s s' : JS.str)
    (key : option SortableField) (reverse : bool) :
  eq_nocase s s' ->
  Table.filteredData C s key reverse = Table.filteredData C s' key reverse.
Proof.
  intros H. unfold Table.filteredData.
  rewrite (List.filter_ext (matches s) (matches s')); [reflexivity|].
  intros r. now apply matches_nocase.
Qed.

Lemma X4_search_case_is_irrelevant_witness :
  Table.filteredData [alpha; beta; orion] "Or" (Some Key_ship_name) false
  = Table.filteredData [alpha; beta; orion] "oR" (Some Key_ship_name) false.
Proof.
  apply X4_search_case_is_irrelevant.
  constructor;
    [right; left; split; [change (65 <= 79 <= 90); lia | reflexivity]|].
  constructor;
    [right; right; split; [change (65 <= 82 <= 90); lia | reflexivity]|].
  constructor.
Defined.

Section PageShape.

(** Whatever the two indices, a slice is a run of adjacent elements. *)
Lemma slice_segment {A : Type} (l : list A) (start end_ : Z) :
  exists pre post, l = pre ++ JS.slice l start end_ ++ post.
Proof.
  unfold JS.slice.
  set (n := Z.to_nat (_ - _)). set (k := Z.to_nat _).
  exists (firstn k l), (skipn n (skipn k l)).
  now rewrite (firstn_skipn n), (firstn_skipn k).
Qed.

Lemma slice_length {A : Type} (l : list A) (start end_ : Z) :
  let len := Z.of_nat (List.length l) in
  let k := if Z.ltb start 0 then Z.max (len + start) 0 else Z.min start len in
  let final := if Z.ltb end_ 0 then Z.max (len + end_) 0 else Z.min end_ len in
  Z.of_nat (List.length (JS.slice l start end_)) = Z.max 0 (final - k).
Proof.
  intros len k final. unfold JS.slice. fold len. fold k. fold final.
  rewrite length_firstn, length_skipn.
  assert (0 <= k <= len).
  { unfold k. destruct (Z.ltb_spec start 0); unfold len; lia. }
  assert (0 <= final <= len).
  { unfold final. destruct (Z.ltb_spec end_ 0); unfold len; lia. }
  unfold len in *. lia.
Qed.

Lemma paginatedData_length (l : list Ship) (p : Z) :
  1 <= p ->
  Z.of_nat (List.length (paginatedData l p))
  = Z.min 10 (Z.max 0 (Z.of_nat (List.length l) - 10 * (p - 1))).
Proof.
  intros Hp. unfold paginatedData. rewrite slice_length. unfold pageSize.
  destruct (Z.ltb_spec ((p - 1) * 10) 0); [lia|].
  destruct (Z.ltb_spec (p * 10) 0); lia.
Qed.

Lemma paginatedData_length_le (l : list Ship) (p : Z) :
  (List.length (paginatedData l p) <= 10)%nat.
Proof.
  apply Nat2Z.inj_le. unfold paginatedData. rewrite slice_length.
  unfold pageSize.
  destruct (Z.ltb_spec ((p - 1) * 10) 0);
    destruct (Z.ltb_spec (p * 10) 0); lia.
Qed.

Lemma totalPages_bounds (l : list Ship) :
  Z.of_nat (List.length l) <= totalPages l * 10
  /\ (totalPages l - 1) * 10 < Z.of_nat (List.length l).
Proof.
  apply (ceil_div_spec (Z.of_nat (List.length l)) 10). lia.
Qed.

Lemma paginatedData_nonempty (l : list Ship) (p : Z) :
  1 <= p <= totalPages l -> paginatedData l p <> [].
Proof.
  intros Hp E. pose proof (paginatedData_length l p (proj1 Hp)) as H.
  rewrite E in H. simpl in H.
  destruct (totalPages_bounds l) as [_ Hlow]. lia.
Qed.

Lemma first_page_nonempty (l : list Ship) :
  l <> [] -> paginatedData l 1 <> [].
Proof.
  intros Hl E. pose proof (paginatedData_length l 1) as H.
  rewrite E in H. simpl in H. destruct l; [congruence|]. simpl in H. lia.
Qed.

End PageShape.

(** X5.  The shape of a page.  Whatever the page number, the rows of the
    page are adjacent rows of the collection, in its order, and at most 10.
    From page 1 on the page holds min (10, N - 10 (p - 1)) rows, never less
    than none: each page before the last is full, each page up to the last
    is non-empty, each page past the last is empty.  Page 0 is empty. *)
Theorem X5_page_shape (rows : list Ship) (p : Z) :
  (exists pre post, rows = pre ++ paginatedData rows p ++ post)
  /\ (List.length (paginatedData rows p) <= 10)%nat
  /\ (1 <= p ->
      Z.of_nat (List.length (paginatedData rows p))
      = Z.min 10 (Z.max 0 (Z.of_nat (List.length rows) - 10 * (p - 1))))
  /\ (1 <= p < totalPages rows ->
      List.length (paginatedData rows p) = 10%nat)
  /\ (1 <= p <= totalPages rows -> paginatedData rows p <> [])
  /\ (totalPages rows < p -> paginatedData rows p = [])
  /\ paginatedData rows 0 = [].
Proof.
  destruct (totalPages_bounds rows) as [Hup Hlow].
  split; [apply slice_segment|]. split; [apply paginatedData_length_le|].
  split; [apply paginatedData_length|]. split; [|split; [|split]].
  - intros Hp. pose proof (paginatedData_length rows p (proj1 Hp)). lia.
  - apply paginatedData_nonempty.
  - intros Hp. apply List.length_zero_iff_nil.
    destruct (Z_le_gt_dec 1 p) as [H1|H1].
    + pose proof (paginatedData_length rows p H1). lia.
    + assert (0 <= totalPages rows) by lia. lia.
  - apply List.length_zero_iff_nil. apply Nat2Z.inj.
    unfold paginatedData. rewrite slice_length. simpl. lia.
Qed.

Lemma X5_page_shape_witness :
  paginatedData (List.map (fun nm : string => vessel 0 nm None 0)
                   ["A"; "B"; "C"; "D"; "E"; "F"; "G"; "H"; "I"; "J"; "K"])
    2 <> [].
Proof.
  apply X5_page_shape. split; [lia | vm_compute; discriminate].
Defined.

(** X6.  The pagination control is rendered exactly when there is more
    than one page. *)
Theorem X6_pagination_shown_for_several_pages (rows : list Ship) :
  showPagination rows = true <-> 2 <= totalPages rows.
Proof.
  unfold showPagination, pageSize. rewrite Z.gtb_ltb, Z.ltb_lt.
  destruct (totalPages_bounds rows) as [Hup Hlow]. lia.
Qed.

(** X7.  The rows of the table body, when no two fetched ships share a
    name (React keys the rows by ship name).  The component returns rows
    only once the loader is gone; they are then at least one and at most 10,
    each of them is a record of the fetched collection the lowercase form of
    whose name holds the lowercase form of the search string, and they are
    adjacent rows of the displayed collection.  It returns the empty state
    exactly when the loader is gone and the current page holds no row. *)
Theorem X7_rows_shown_are_matching_ships (st : State) :
  List.NoDup (List.map ship_name (ships st)) ->
  (forall rows,
      Table.render st = Rows rows ->
      loading st = false
      /\ rows <> []
      /\ (List.length rows <= 10)%nat
      /\ (forall r, In r rows ->
            In r (ships st)
            /\ exists pre post,
                 JS.toLowerCase (ship_name r)
                 = pre ++ JS.toLowerCase (search st) ++ post)
      /\ exists pre post, displayed st = pre ++ rows ++ post)
  /\ (Table.render st = NoShipsFound <->
      loading st = false
      /\ paginatedData (displayed st) (currentPage st) = []).
Proof.
  intros _. unfold Table.render. fold (displayed st).
  destruct (loading st).
  - split; [discriminate|]. split; [discriminate | intros [H _]; discriminate].
  - pose proof (slice_segment (displayed st)
                  ((currentPage st - 1) * pageSize)
                  (currentPage st * pageSize)) as Hseg.
    pose proof (paginatedData_length_le (displayed st) (currentPage st))
      as Hlen.
    fold (paginatedData (displayed st) (currentPage st)) in Hseg.
    destruct (paginatedData (displayed st) (currentPage st)) as [|x l] eqn:E.
    + split; [discriminate | now split].
    + split; [|split; [discriminate | intros [_ H]; discriminate]].
      intros rows H. inversion H; subst rows.
      split; [reflexivity|]. split; [discriminate|]. split; [exact Hlen|].
      split; [|exact Hseg].
      intros r Hr. destruct Hseg as [pre [post Hd]].
      assert (Hin : In r (displayed st)).
      { rewrite Hd. apply in_or_app. right. apply in_or_app. now left. }
      unfold displayed in Hin. apply filteredData_In in Hin.
      now rewrite <- matches_includes.
Qed.

Lemma X7_rows_shown_are_matching_ships_witness :
  loading (sorted_by_name false) = false.
Proof.
  assert (Hnames : List.NoDup
                     (List.map ship_name (ships (sorted_by_name false)))).
  { vm_compute.
    constructor; [|constructor; [|constructor; [|constructor]]];
      simpl; intuition discriminate. }
  apply (proj1 (X7_rows_shown_are_matching_ships (sorted_by_name false)
                  Hnames) [alpha; beta; orion]).
  reflexivity.
Defined.

Section Antisymmetry.

Lemma comparefn_strings_antisym (f : Ship -> JS.str) (key : SortableField)
    (reverse : bool) (a b : Ship) :
  (forall r, sortValue key r = JS.VStr (f r)) ->
  comparefn key reverse a b = - comparefn key reverse b a.
Proof.
  intros H. rewrite !(comparefn_strings f key reverse) by assumption.
  destruct (str_eqb_spec (f a) (f b)) as [E|E].
  - rewrite E, str_eqb_refl. reflexivity.
  - destruct (str_eqb_spec (f b) (f a)) as [E'|_]; [congruence|].
    rewrite (ltb_total (f b) (f a)) by congruence.
    destruct reverse, (JS.str_ltb (f a) (f b)); reflexivity.
Qed.

Lemma comparefn_missions_antisym (reverse : bool) (a b : Ship) :
  comparefn Key_missions reverse a b = - comparefn Key_missions reverse b a.
Proof.
  unfold comparefn, sortValue, JS.strict_eq, JS.gt. simpl.
  generalize (Z.of_nat (List.length (missions a))),
    (Z.of_nat (List.length (missions b))). intros m n.
  destruct reverse; cases_Z.
Qed.

End Antisymmetry.

(** X8.  Where the comparator is antisymmetric and where it is not.  Under
    the keys "ship_name", "ship_type" and "missions", and under
    "year_built" for any two records other than one without a year and one
    of year 0, swapping the two records negates the result.  Between a
    record without a year and a record of year 0 the comparator answers -1
    in both orders, and 1 in both orders under the flag: neither record is
    put before the other consistently. *)
Theorem X8_comparator_antisymmetry (reverse : bool) (a b : Ship) :
  (forall key, key <> Key_year_built ->
      comparefn key reverse a b = - comparefn key reverse b a)
  /\ (~ (year_built a = None /\ year_built b = Some 0) ->
      ~ (year_built a = Some 0 /\ year_built b = None) ->
      comparefn Key_year_built reverse a b
      = - comparefn Key_year_built reverse b a)
  /\ (year_built a = None -> year_built b = Some 0 ->
      comparefn Key_year_built false a b = -1
      /\ comparefn Key_year_built false b a = -1
      /\ comparefn Key_year_built true a b = 1
      /\ comparefn Key_year_built true b a = 1).
Proof.
  split; [|split].
  - intros [] Hk; try congruence.
    + now apply (comparefn_strings_antisym ship_name).
    + now apply (comparefn_strings_antisym ship_type).
    + apply comparefn_missions_antisym.
  - intros H1 H2. unfold comparefn, sortValue, JS.strict_eq, JS.gt.
    destruct (year_built a) as [x|], (year_built b) as [y|]; simpl.
    + destruct reverse; cases_Z.
    + assert (x <> 0) by (intros ->; now apply H2).
      destruct reverse; cases_Z.
    + assert (y <> 0) by (intros ->; now apply H1).
      destruct reverse; cases_Z.
    + now destruct reverse.
  - intros Ha Hb. unfold comparefn, sortValue. rewrite Ha, Hb.
    repeat split.
Qed.

Lemma X8_comparator_antisymmetry_witness :
  comparefn Key_year_built false beta (vessel 4 "Zero" (Some 0) 0) = -1
  /\ comparefn Key_year_built false (vessel 4 "Zero" (Some 0) 0) beta = -1.
Proof.
  pose proof (X8_comparator_antisymmetry false beta
                (vessel 4 "Zero" (Some 0) 0)) as [_ [_ H]].
  destruct (H eq_refl eq_refl) as [H1 [H2 _]]. now split.
Defined.

(** X9.  The header icons.  After a click on the header of column [k],
    that column alone carries a chevron, pointing down when the table is
    then ascending and up when it is descending; every other sortable
    column carries the neutral icon.  A first click on a column always gives
    the ascending direction. *)
Theorem X9_header_icons_after_click (st : State) (k : SortableField) :
  header k (click k st)
  = (if reverseSort (click k st) then FiChevronUp else FiChevronDown)
  /\ (forall c, c <> k -> header c (click k st) = FiMoreVertical)
  /\ (sortBy st <> Some k -> header k (click k st) = FiChevronDown).
Proof.
  assert (Hsame : forall f, field_eqb f f = true) by (now intros []).
  assert (Hdiff : forall f g, field_eqb f g = true -> f = g)
    by (intros [] []; simpl; congruence).
  unfold header, click, setSorting, run, Th. simpl. rewrite Hsame.
  split; [reflexivity|]. split.
  - intros c Hc. destruct (field_eqb c k) eqn:E; [|reflexivity].
    apply Hdiff in E. contradiction.
  - intros Hk. unfold is_field. destruct (sortBy st) as [f|]; [|reflexivity].
    destruct (field_eqb k f) eqn:E; [|reflexivity].
    apply Hdiff in E. congruence.
Qed.

Lemma X9_header_icons_after_click_witness :
  header Key_missions (click Key_ship_name (sorted_by_name false))
  = FiMoreVertical.
Proof.
  apply (X9_header_icons_after_click (sorted_by_name false) Key_ship_name).
  discriminate.
Defined.

(* ===================================================================== *)
(** ** The list screen as a state machine *)
(* ===================================================================== *)

Section Machine.

Lemma click_totalPages (k : SortableField) (st : State) :
  totalPages (displayed (click k st)) = totalPages (displayed st).
Proof.
  unfold totalPages, displayed.
  change (ships (click k st)) with (ships st).
  change (search (click k st)) with (search st).
  now rewrite !(Permutation_length (filteredData_perm _ _ _ _)).
Qed.

Lemma page_In_ships (st : State) (s : Ship) :
  In s (paginatedData (displayed st) (currentPage st)) -> In s (ships st).
Proof.
  intros H.
  destruct (slice_segment (displayed st) ((currentPage st - 1) * pageSize)
              (currentPage st * pageSize)) as [pre [post Hd]].
  fold (paginatedData (displayed st) (currentPage st)) in Hd.
  assert (Hin : In s (displayed st)).
  { rewrite Hd. apply in_or_app. right. apply in_or_app. now left. }
  unfold displayed in Hin. now apply filteredData_In in Hin.
Qed.

Lemma invariant_step (pending : bool) (e : event) (st : State) :
  table_invariant pending st -> enabled pending e st ->
  table_invariant (still_pending pending e) (step e st).
Proof.
  intros (P1 & P2 & P3 & P4 & P5 & P6) He.
  assert (Hidle : loading st = false -> pending = false).
  { intros Hl. destruct pending; [|reflexivity].
    destruct (P1 eq_refl) as [H _]. congruence. }
  destruct e as [v | k | p | s | r]; simpl in He.
  - (* the search box *)
    unfold table_invariant, step. simpl.
    split; [intros Hp; destruct (P1 Hp) as (? & ? & ? & ? & ?); tauto|].
    split; [exact P2|]. split; [exact P3|]. split; [exact P4|].
    split; [now left | exact P6].
  - (* a header *)
    rewrite (Hidle He) in *. unfold table_invariant. simpl still_pending.
    change (step (HeaderClicked k) st) with (click k st).
    rewrite click_totalPages.
    split; [discriminate|]. split; [intros _; exact He|].
    split; [exact P3|]. split; [exact P4|]. split; [exact P5|].
    discriminate.
  - (* the pagination control *)
    destruct He as (Hl & _ & Hrange). rewrite (Hidle Hl) in *.
    unfold table_invariant, step. simpl.
    split; [discriminate|]. split; [intros _; exact Hl|].
    split; [exact P3|]. split; [exact P4|]. split; [now right | exact P6].
  - (* a row *)
    destruct He as (Hl & Hin). rewrite (Hidle Hl) in *.
    unfold table_invariant, step. simpl.
    split; [discriminate|]. split; [intros _; exact Hl|].
    split; [split; [discriminate | reflexivity]|].
    split; [|split; [exact P5 | exact P6]].
    intros s' Hs'. inversion Hs'; subst s'. now apply page_In_ships.
  - (* the fetch *)
    subst pending. destruct (P1 eq_refl) as (Hl & Hs & Hsel & Hd & Hc).
    unfold table_invariant, step. simpl still_pending.
    split; [discriminate|].
    destruct r as [data|]; simpl.
    + split; [reflexivity|]. split; [exact P3|].
      split; [intros s Hs'; congruence|]. split; [now left | exact P6].
    + split; [reflexivity|]. split; [exact P3|]. split; [exact P4|].
      split; [now left | exact P6].
Qed.

Lemma reachable_invariant (pending : bool) (st : State) :
  reachable pending st -> table_invariant pending st.
Proof.
  induction 1 as [|pending e st _ IH He].
  - unfold table_invariant. simpl.
    repeat split; try discriminate; try congruence. now left.
  - now apply invariant_step.
Qed.

End Machine.

Lemma paginatedData_nil (p : Z) : paginatedData [] p = [].
Proof.
  unfold paginatedData, JS.slice. now rewrite skipn_nil, firstn_nil.
Qed.

(** X10.  Nothing closes the detail panel.  Whatever happens next, a panel
    that is open stays open and a selected ship stays selected; on a mounted
    screen the panel is open exactly when a ship is selected, and the
    selected ship is one of the fetched ships. *)
Theorem X10_panel_stays_open :
  (forall e st,
      drawerOpened st = true -> drawerOpened (step e st) = true)
  /\ (forall e st,
        selectedShip st <> None -> selectedShip (step e st) <> None)
  /\ (forall pending st,
        reachable pending st ->
        (drawerOpened st = true <-> selectedShip st <> None)
        /\ (forall s, selectedShip st = Some s -> In s (ships st))).
Proof.
  split; [|split].
  - intros [v | k | p | s | [data|]] st H; unfold step; simpl; auto.
  - intros [v | k | p | s | [data|]] st H; unfold step; simpl; auto;
      discriminate.
  - intros pending st Hr.
    destruct (reachable_invariant pending st Hr)
      as (_ & _ & P3 & P4 & _ & _).
    now split.
Qed.

Lemma X10_panel_stays_open_witness :
  drawerOpened
    (step (SearchChanged "x") (step (RowClicked alpha) (sorted_by_name false)))
  = true.
Proof.
  apply (proj1 X10_panel_stays_open). reflexivity.
Defined.

(** X11.  The current page of a mounted list screen is page 1 or one of
    the pages of the displayed collection, provided the pagination control
    only reports pages it shows; so, once the loader is gone, the empty
    state is on screen exactly when no record matches the search. *)
Theorem X11_current_page_addresses_rows (pending : bool) (st : State) :
  reachable pending st ->
  (currentPage st = 1 \/ 1 <= currentPage st <= totalPages (displayed st))
  /\ (loading st = false ->
      (Table.render st = NoShipsFound <-> displayed st = [])).
Proof.
  intros Hr.
  destruct (reachable_invariant pending st Hr) as (_ & _ & _ & _ & P5 & _).
  split; [exact P5|]. intros Hl.
  unfold Table.render. rewrite Hl. fold (displayed st).
  destruct (paginatedData (displayed st) (currentPage st)) as [|x l] eqn:E.
  - split; [|reflexivity]. intros _.
    destruct (displayed st) as [|y d] eqn:Ed; [reflexivity|]. exfalso.
    destruct P5 as [H1 | Hrange].
    + rewrite H1 in E. now apply (first_page_nonempty (y :: d)).
    + now apply (paginatedData_nonempty (y :: d) (currentPage st)).
  - split; [discriminate|]. intros Hd. rewrite Hd, paginatedData_nil in E.
    discriminate.
Qed.

Lemma X11_current_page_addresses_rows_witness :
  currentPage (step (FetchSettled (Resolved [alpha; beta; orion]))
                 (run fetchShips_start Table.initial)) = 1
  \/ 1 <= currentPage (step (FetchSettled (Resolved [alpha; beta; orion]))
                         (run fetchShips_start Table.initial))
     <= totalPages (displayed
                      (step (FetchSettled (Resolved [alpha; beta; orion]))
                         (run fetchShips_start Table.initial))).
Proof.
  apply (X11_current_page_addresses_rows false).
  apply (reachable_step true (FetchSettled (Resolved [alpha; beta; orion]))).
  - apply reachable_mount.
  - reflexivity.
Defined.

(** X12.  The loader of a mounted list screen is on screen exactly while
    its fetch is outstanding, and the collection is empty until the fetch
    settles; without a sort key the direction flag is off. *)
Theorem X12_loader_while_fetching (pending : bool) (st : State) :
  reachable pending st ->
  (loading st = true <-> pending = true)
  /\ (Table.render st = Loader <-> pending = true)
  /\ (pending = true -> ships st = [])
  /\ (sortBy st = None -> reverseSort st = false).
Proof.
  intros Hr.
  destruct (reachable_invariant pending st Hr) as (P1 & P2 & _ & _ & _ & P6).
  assert (Hl : loading st = true <-> pending = true).
  { split.
    - intros H. destruct pending; [reflexivity|].
      rewrite (P2 eq_refl) in H. discriminate.
    - intros H. now apply P1. }
  split; [exact Hl|]. split; [|split; [|exact P6]].
  - rewrite <- Hl. unfold Table.render. destruct (loading st).
    + now split.
    + split; [|discriminate].
      now destruct (paginatedData _ _).
  - intros H. now apply P1.
Qed.

Lemma X12_loader_while_fetching_witness :
  Table.render (step (SearchChanged "al") (run fetchShips_start Table.initial))
  = Loader <-> true = true.
Proof.
  apply (X12_loader_while_fetching true).
  apply (reachable_step true (SearchChanged "al")).
  - apply reachable_mount.
  - exact I.
Defined.

(** X13.  A search typed while the loader is on screen is applied to the
    collection when it arrives: the table then shows the first ten of the
    fetched records whose name contains the search string, in the order of
    the reply, or its empty state when there is none. *)
Theorem X13_search_typed_while_loading (v : JS.str) (data : list Ship) :
  Table.render
    (step (FetchSettled (Resolved data))
       (step (SearchChanged v) (run fetchShips_start Table.initial)))
  = match firstn 10 (List.filter (matches v) data) with
    | [] => NoShipsFound
    | rows => Rows rows
    end.
Proof.
  unfold Table.render, step. simpl.
  unfold Table.filteredData. rewrite paginatedData_chunk by lia.
  reflexivity.
Qed.

(* ===================================================================== *)
(** ** The detail screen *)
(* ===================================================================== *)

Section Detail.

Lemma roles_are_children (l : list string) :
  forallb DetailPage.valid_child (List.map DetailPage.JStr l) = true.
Proof. induction l as [|x l IH]; [reflexivity | exact IH]. Qed.

Lemma missions_are_readable (l : list DetailPage.Mission) :
  forallb DetailPage.mission_ok (List.map DetailPage.mission_json l) = true.
Proof. induction l as [|x l IH]; [reflexivity | exact IH]. Qed.

Lemma prop_of_non_object (d : DetailPage.json) (k : string) :
  (forall fields, d <> DetailPage.JObj fields) -> DetailPage.prop d k = None.
Proof. intros H. destruct d; try reflexivity. now destruct (H fields). Qed.

Lemma settle_all_app (rs : list DetailPage.response) (r : DetailPage.response)
    (st : DetailPage.State) :
  DetailPage.settle_all (rs ++ [r]) st
  = DetailPage.run (DetailPage.fetchShip_resume r)
      (DetailPage.settle_all rs st).
Proof. unfold DetailPage.settle_all. now rewrite fold_left_app. Qed.

End Detail.

(** X14.  A reply of the declared shape is displayed.  Whatever the values
    of its fields, present or absent where the shape allows it, the body of
    a ship is stored and rendered as details: the loader is gone, "Ship not
    found" is not shown and nothing throws. *)
Theorem X14_well_shaped_ship_is_displayed (s : DetailPage.Ship) :
  DetailPage.render
    (DetailPage.run
       (DetailPage.fetchShip_resume (DetailPage.Body (DetailPage.ship_json s)))
       DetailPage.initial)
  = DetailPage.Details (DetailPage.ship_json s).
Proof.
  destruct s as [id nm model ty rl act imo mmsi abs cls wl wk yb hp stt sp
                   co pos sl al ms url img].
  unfold DetailPage.render. simpl DetailPage.loading. cbv iota.
  simpl DetailPage.ship. simpl DetailPage.truthy. cbv iota.
  replace (DetailPage.fields_ok _) with true.
  - replace (DetailPage.roles_ok _) with true.
    + replace (DetailPage.missions_ok _) with true; [reflexivity|].
      symmetry. unfold DetailPage.missions_ok. simpl.
      apply missions_are_readable.
    + symmetry. unfold DetailPage.roles_ok. simpl.
      apply roles_are_children.
  - symmetry. unfold DetailPage.fields_ok. simpl.
    destruct model as [m|], abs, cls, sl, al; simpl;
      try destruct (String.eqb m ""); reflexivity.
Qed.

(** X15.  What the detail screen shows once its first request has settled.
    It never shows the loader.  It shows "Ship not found" exactly when the
    request failed or the body is [null], [false], [0] or the empty string.
    Any other body that is not an object makes the rendering throw.  Details
    are rendered only for an object whose [roles] and [missions] are arrays. *)
Theorem X15_detail_outcomes (r : DetailPage.response) :
  let st := DetailPage.run (DetailPage.fetchShip_resume r) DetailPage.initial in
  DetailPage.render st <> DetailPage.Loader
  /\ (DetailPage.render st = DetailPage.ShipNotFound <->
      match r with
      | DetailPage.Body d => DetailPage.truthy d = false
      | _ => True
      end)
  /\ (forall d,
        r = DetailPage.Body d -> DetailPage.truthy d = true ->
        (forall fields, d <> DetailPage.JObj fields) ->
        DetailPage.render st = DetailPage.Throws)
  /\ (forall d',
        DetailPage.render st = DetailPage.Details d' ->
        r = DetailPage.Body d'
        /\ exists fields items ms,
             d' = DetailPage.JObj fields
             /\ DetailPage.prop d' "roles" = Some (DetailPage.JArr items)
             /\ DetailPage.prop d' "missions" = Some (DetailPage.JArr ms)).
Proof.
  destruct r as [d | |]; simpl.
  2, 3: (split; [discriminate|]; split; [now split|];
         split; [discriminate | discriminate]).
  unfold DetailPage.render. simpl.
  destruct (DetailPage.truthy d) eqn:Ht; simpl.
  - destruct (DetailPage.fields_ok d && DetailPage.roles_ok d
              && DetailPage.missions_ok d)%bool eqn:Hok.
    + split; [discriminate|]. split; [split; discriminate|]. split.
      * intros d0 E _ Hno. inversion E; subst d0.
        apply andb_prop in Hok. destruct Hok as [Hok _].
        apply andb_prop in Hok. destruct Hok as [_ Hroles].
        unfold DetailPage.roles_ok in Hroles.
        rewrite (prop_of_non_object d "roles" Hno) in Hroles. discriminate.
      * intros d' E. inversion E; subst d'. split; [reflexivity|].
        apply andb_prop in Hok. destruct Hok as [Hok Hmissions].
        apply andb_prop in Hok. destruct Hok as [_ Hroles].
        unfold DetailPage.roles_ok in Hroles.
        unfold DetailPage.missions_ok in Hmissions.
        destruct (DetailPage.prop d "roles")
          as [[| | | |items|]|] eqn:Er; try discriminate.
        destruct (DetailPage.prop d "missions")
          as [[| | | |ms|]|] eqn:Em; try discriminate.
        destruct d as [| | | | |fields]; try discriminate.
        now exists fields, items, ms.
    + split; [discriminate|]. split; [split; discriminate|].
      split; [reflexivity | discriminate].
  - split; [discriminate|]. split; [now split|].
    split; [intros d0 E; inversion E; congruence | discriminate].
Qed.

Lemma X15_detail_outcomes_witness :
  DetailPage.render
    (DetailPage.run
       (DetailPage.fetchShip_resume
          (DetailPage.Body (DetailPage.JStr "Not Found")))
       DetailPage.initial)
  = DetailPage.Throws.
Proof.
  pose proof (X15_detail_outcomes
                (DetailPage.Body (DetailPage.JStr "Not Found"))) as H.
  cbv zeta in H. destruct H as [_ [_ [H _]]].
  apply (H (DetailPage.JStr "Not Found")).
  - reflexivity.
  - reflexivity.
  - discriminate.
Defined.

(** X16.  Several requests of one activation, in the order in which they
    settle: the screen holds the body of the reply that settled last among
    those that delivered one, whatever settled after it, and the ship it
    held before when none did; once a request has settled, the loader never
    comes back. *)
Theorem X16_last_settled_body_is_kept (rs : list DetailPage.response)
    (st : DetailPage.State) :
  DetailPage.ship (DetailPage.settle_all rs st)
  = fold_left (fun kept r => match r with
                             | DetailPage.Body d => d
                             | _ => kept
                             end) rs (DetailPage.ship st)
  /\ (rs <> [] -> DetailPage.loading (DetailPage.settle_all rs st) = false)
  /\ (DetailPage.loading st = false ->
      DetailPage.loading (DetailPage.settle_all rs st) = false)
  /\ ((forall r, In r rs -> r = DetailPage.Rejected \/ r = DetailPage.Unparsable) ->
      DetailPage.ship (DetailPage.settle_all rs st) = DetailPage.ship st).
Proof.
  assert (Hship : forall rs st,
    DetailPage.ship (DetailPage.settle_all rs st)
    = fold_left (fun kept r => match r with
                               | DetailPage.Body d => d
                               | _ => kept
                               end) rs (DetailPage.ship st)).
  { clear. induction rs as [|r rs IH]; intros st; [reflexivity|].
    unfold DetailPage.settle_all in *. simpl fold_left. rewrite IH.
    now destruct r. }
  assert (Hload : forall rs st,
    DetailPage.loading st = false ->
    DetailPage.loading (DetailPage.settle_all rs st) = false).
  { clear. induction rs as [|r rs IH]; intros st H; [exact H|].
    unfold DetailPage.settle_all in *. simpl fold_left. apply IH.
    now destruct r. }
  split; [apply Hship|]. split; [|split; [apply Hload|]].
  - intros Hne. destruct rs as [|r rs]; [congruence|].
    unfold DetailPage.settle_all. simpl fold_left.
    apply (Hload rs). now destruct r.
  - intros Hfail. rewrite Hship. clear Hship Hload.
    revert st. induction rs as [|r rs IH]; intros st; [reflexivity|].
    simpl. destruct (Hfail r (or_introl eq_refl)) as [-> | ->];
      apply IH; intros r' Hr'; apply Hfail; now right.
Qed.

Lemma X16_last_settled_body_is_kept_witness :
  DetailPage.ship
    (DetailPage.settle_all
       [DetailPage.Body (DetailPage.ship_json champion); DetailPage.Rejected]
       DetailPage.initial)
  = DetailPage.ship_json champion.
Proof.
  rewrite (proj1 (X16_last_settled_body_is_kept
                    [DetailPage.Body (DetailPage.ship_json champion);
                     DetailPage.Rejected] DetailPage.initial)).
  reflexivity.
Defined.

(* ===================================================================== *)
(** ** The two directions of a sort *)
(* ===================================================================== *)

Section Reversal.

Context {A : Type}.
Variable R : A -> A -> Prop.

Lemma StronglySorted_app (l1 l2 : list A) :
  StronglySorted R l1 -> StronglySorted R l2 ->
  (forall a b, In a l1 -> In b l2 -> R a b) ->
  StronglySorted R (l1 ++ l2).
Proof.
  intros H1 H2 H. induction H1 as [|x l1 Hl IH Hx]; [exact H2|].
  simpl. constructor.
  - apply IH. intros a b Ha Hb. apply H; [now right | assumption].
  - apply List.Forall_forall. intros b Hb. apply in_app_or in Hb.
    destruct Hb as [Hb | Hb].
    + rewrite List.Forall_forall in Hx. now apply Hx.
    + apply H; [now left | assumption].
Qed.

Lemma StronglySorted_rev (l : list A) :
  StronglySorted (fun a b => R b a) l -> StronglySorted R (rev l).
Proof.
  induction 1 as [|x l Hl IH Hx]; simpl; [constructor|].
  apply StronglySorted_app; [exact IH | repeat constructor|].
  intros a b Ha [<- | []]. rewrite List.Forall_forall in Hx.
  apply Hx. now apply in_rev.
Qed.

(** Two ordered arrangements of the same elements, no two of which tie,
    are the same list. *)
Lemma ordered_arrangement_unique (l1 l2 : list A) :
  StronglySorted R l1 -> StronglySorted R l2 -> Permutation l1 l2 ->
  (forall a b, In a l1 -> In b l1 -> R a b -> R b a -> a = b) ->
  l1 = l2.
Proof.
  intros H1. revert l2. induction H1 as [|x l1 Hl IH Hx]; intros l2 H2 Hp Hu.
  - now apply Permutation_nil in Hp.
  - destruct H2 as [|y l2 Hl2 Hy].
    + apply Permutation_sym, Permutation_nil in Hp. discriminate.
    + rewrite List.Forall_forall in Hx, Hy.
      assert (Exy : x = y).
      { assert (Hxin : In x (y :: l2))
          by (apply (Permutation_in x Hp); now left).
        assert (Hyin : In y (x :: l1))
          by (apply (Permutation_in y (Permutation_sym Hp)); now left).
        destruct Hxin as [E | Hxin]; [now symmetry|].
        destruct Hyin as [E | Hyin]; [assumption|].
        apply Hu; [now left | now right | now apply Hx | now apply Hy]. }
      subst y. f_equal. apply IH; [assumption | |].
      * now apply Permutation_cons_inv in Hp.
      * intros a b Ha Hb. apply Hu; now right.
Qed.

End Reversal.

(** X17.  The two directions of a sort.  When no two different records
    among the filtered ones tie under the key, the descending table is the
    ascending table read backwards. *)
Theorem X17_descending_is_ascending_reversed (C : list Ship) (s : JS.str)
    (key : SortableField) :
  (forall a b,
      In a (Table.filteredData C s None false) ->
      In b (Table.filteredData C s None false) ->
      key_le key a b -> key_le key b a -> a = b) ->
  Table.filteredData C s (Some key) true
  = rev (Table.filteredData C s (Some key) false).
Proof.
  intros Hu.
  destruct (filteredData_ordered C s key) as [Hasc Hdesc].
  rewrite <- (rev_involutive (Table.filteredData C s (Some key) true)).
  f_equal. apply (ordered_arrangement_unique (key_le key)).
  - now apply StronglySorted_rev.
  - exact Hasc.
  - rewrite <- Permutation_rev. now rewrite !filteredData_perm.
  - intros a b Ha Hb. apply Hu.
    + apply in_rev in Ha.
      apply (Permutation_in a (filteredData_perm C s (Some key) true)) in Ha.
      exact Ha.
    + apply in_rev in Hb.
      apply (Permutation_in b (filteredData_perm C s (Some key) true)) in Hb.
      exact Hb.
Qed.

Lemma X17_descending_is_ascending_reversed_witness :
  Table.filteredData [alpha; beta; orion] "" (Some Key_missions) true
  = rev (Table.filteredData [alpha; beta; orion] "" (Some Key_missions) false).
Proof.
  apply X17_descending_is_ascending_reversed.
  intros a b Ha Hb. simpl in Ha, Hb.
  destruct Ha as [<- | [<- | [<- | []]]];
    destruct Hb as [<- | [<- | [<- | []]]];
    unfold key_le, mission_count; simpl; intros; try reflexivity; lia.
Defined.
